(** * Star background: scroll coordination and parallax rendering

    A shallow embedding of [src/stars.js]: the configuration object, the
    three scroll handlers ([setupRealScrollParallax],
    [setupVirtualScrollParallax], [setupCombinedScrollParallax]), the
    frame-coalescing [ticking] flag together with the browser's queue of
    animation-frame callbacks, and the renderer [updateStarPositions].

    JavaScript numbers are modelled as exact rationals ([Q]); IEEE rounding,
    NaN and the infinities are outside the model.  [==] is equality of
    rationals.  Where a statement depends on rounding it is made about
    the doubles themselves: [rounds_to] relates an exact result to a
    nearest double, primitive floats evaluate the code's arithmetic at
    concrete numbers, and equalities of sums are stated for whole numbers,
    on which doubles are exact. *)

From Stdlib Require Import QArith Qminmax Qabs Qround Lqa PrimFloat.
From stdpp Require Import gmap strings pretty.

Local Open Scope Q_scope.

(** ** Numbers *)

(** [a < b] as the boolean test JavaScript performs. *)
Definition Qlt_bool (a b : Q) : bool := negb (Qle_bool b a).

(** ** CONFIG *)

(** An object with one number per layer, [{layer1: .., .., layer5: ..}]. *)
Record LayerTable := {
  layer1 : Q;
  layer2 : Q;
  layer3 : Q;
  layer4 : Q;
  layer5 : Q
}.

Record VirtualScrollConfig := {
  maxOffset : Q;
  sensitivity : Q
}.

Record Config := {
  parallax : LayerTable;
  virtualScroll : VirtualScrollConfig
}.

Definition CONFIG : Config := {|
  parallax := {| layer1 := 1; layer2 := 7 # 10; layer3 := 45 # 100;
                 layer4 := 25 # 100; layer5 := 10 # 100 |};
  virtualScroll := {| maxOffset := 2000; sensitivity := 1 |}
|}.

(** [table[`layer${i}`]] for the loop indices 1..5.  Any other index is
    never looked up by the code; it reads as 0 here. *)
Definition layer_field (t : LayerTable) (i : nat) : Q :=
  match i with
  | 1%nat => layer1 t
  | 2%nat => layer2 t
  | 3%nat => layer3 t
  | 4%nat => layer4 t
  | 5%nat => layer5 t
  | _ => 0
  end.

(** ** The document *)

(** A layer element: its class name and the vertical offset [y] of its
    [style.transform = translateY(y px)], if one was ever set. *)
Record Element := {
  className : string;
  transform : option Q
}.

Definition with_transform (y : Q) (e : Element) : Element :=
  {| className := className e; transform := Some y |}.

(** The document maps element ids to elements. *)
Abbreviation DOM := (gmap string Element).

(** [`star-layer-${i}`] *)
Definition layer_id (i : nat) : string := "star-layer-" +:+ pretty i.

(** [document.getElementById(id)]: a handle on the element (its id), or
    [None] for JavaScript's [null]. *)
Definition getElementById (dom : DOM) (id : string) : option string :=
  match dom !! id with
  | Some _ => Some id
  | None => None
  end.

(** The truthiness test of [if (layer)]. *)
Definition truthy {A} (h : option A) : bool :=
  match h with Some _ => true | None => false end.

(** [layer.style.transform = `translateY(${y}px)`].  Writing through
    [null] throws a TypeError, which is the result [None]. *)
Definition set_style_transform (h : option string) (y : Q) (dom : DOM)
  : option DOM :=
  match h with
  | Some id => Some (alter (with_transform y) id dom)
  | None => None
  end.

(** [-scrollValue * CONFIG.parallax[`layer${i}`]] *)
Definition layer_offset (cfg : Config) (scrollValue : Q) (i : nat) : Q :=
  - scrollValue * layer_field (parallax cfg) i.

(** One iteration of the loop of [updateStarPositions]. *)
Definition update_layer (cfg : Config) (scrollValue : Q) (i : nat) (dom : DOM)
  : option DOM :=
  let layer := getElementById dom (layer_id i) in
  if truthy layer
  then set_style_transform layer (layer_offset cfg scrollValue i) dom
  else Some dom.

(** The loop body run for each index of [idxs] in turn. *)
Fixpoint update_layers (cfg : Config) (scrollValue : Q) (idxs : list nat)
    (dom : DOM) : option DOM :=
  match idxs with
  | [] => Some dom
  | i :: rest =>
      dom' ← update_layer cfg scrollValue i dom;
      update_layers cfg scrollValue rest dom'
  end.

(** [updateStarPositions(scrollValue)] on the document: layers 1 to 5. *)
Definition updateStarPositions_dom (cfg : Config) (scrollValue : Q) (dom : DOM)
  : option DOM :=
  update_layers cfg scrollValue (seq 1 5) dom.

(** ** The running system *)

(** What the handlers read from the browser. *)
Record Window := {
  scrollY : Q;
  innerHeight : Q;
  scrollHeight : Q          (* document.body.scrollHeight *)
}.

Definition with_scrollY (y : Q) (w : Window) : Window :=
  {| scrollY := y; innerHeight := innerHeight w;
     scrollHeight := scrollHeight w |}.

(** The three handler sets of the source; [init] selects [RealOnly] or
    [Combined], [setupVirtualScrollParallax] is defined but not called. *)
Inductive ScrollMode := RealOnly | VirtualOnly | Combined.

(** [init]'s choice: [virtualScroll ? Combined : RealOnly]. *)
Definition init_mode (virtualScroll_opt : bool) : ScrollMode :=
  if virtualScroll_opt then Combined else RealOnly.

(** The closure passed to [requestAnimationFrame] by each setup. *)
Inductive Callback := RealFrame | VirtualFrame | CombinedFrame.

Record State := {
  window : Window;
  document : DOM;
  virtualScrollY : Q;
  ticking : bool;
  rafQueue : list Callback;   (* callbacks requested for the next frame *)
  rendered : list Q           (* arguments of the calls of
                                 updateStarPositions, latest first *)
}.

Definition set_virtualScrollY (v : Q) (st : State) : State :=
  {| window := window st; document := document st; virtualScrollY := v;
     ticking := ticking st; rafQueue := rafQueue st;
     rendered := rendered st |}.

Definition set_ticking (b : bool) (st : State) : State :=
  {| window := window st; document := document st;
     virtualScrollY := virtualScrollY st;
     ticking := b; rafQueue := rafQueue st; rendered := rendered st |}.

Definition set_window (w : Window) (st : State) : State :=
  {| window := w; document := document st;
     virtualScrollY := virtualScrollY st;
     ticking := ticking st; rafQueue := rafQueue st;
     rendered := rendered st |}.

Definition set_rafQueue (q : list Callback) (st : State) : State :=
  {| window := window st; document := document st;
     virtualScrollY := virtualScrollY st;
     ticking := ticking st; rafQueue := q; rendered := rendered st |}.

(** [requestAnimationFrame(cb)] *)
Definition requestAnimationFrame (cb : Callback) (st : State) : State :=
  set_rafQueue (rafQueue st ++ [cb]) st.

(** [updateStarPositions(scrollValue)] in the running system: the document
    is updated and the call is recorded in [rendered]. *)
Definition updateStarPositions (cfg : Config) (scrollValue : Q) (st : State)
  : option State :=
  dom' ← updateStarPositions_dom cfg scrollValue (document st);
  Some {| window := window st; document := dom';
          virtualScrollY := virtualScrollY st;
          ticking := ticking st; rafQueue := rafQueue st;
          rendered := scrollValue :: rendered st |}.

(** [Math.max(0, document.body.scrollHeight - window.innerHeight)] *)
Definition maxRealScroll (w : Window) : Q :=
  Qmax 0 (scrollHeight w - innerHeight w).

(** [window.scrollY >= maxRealScroll - 5] *)
Definition atBottom (w : Window) : bool :=
  Qle_bool (maxRealScroll w - 5) (scrollY w).

(** [getEffectiveScroll()]: the value returned and the state it leaves. *)
Definition getEffectiveScroll (st : State) : Q * State :=
  let realScroll := scrollY (window st) in
  if atBottom (window st)
  then (realScroll + virtualScrollY st, st)
  else (realScroll, set_virtualScrollY 0 st).

(** The [if (!ticking) { requestAnimationFrame(..); ticking = true; }]
    tail shared by the handlers. *)
Definition schedule (cb : Callback) (st : State) : State :=
  if ticking st then st
  else set_ticking true (requestAnimationFrame cb st).

(** [onScroll] of [setupRealScrollParallax] *)
Definition onScroll_real (st : State) : State := schedule RealFrame st.

(** [onWheel] of [setupVirtualScrollParallax] *)
Definition onWheel_virtual (cfg : Config) (deltaY : Q) (st : State) : State :=
  let v := virtualScrollY st + deltaY * sensitivity (virtualScroll cfg) in
  let v := Qmax 0 (Qmin (maxOffset (virtualScroll cfg)) v) in
  schedule VirtualFrame (set_virtualScrollY v st).

(** [onScroll] of [setupCombinedScrollParallax] *)
Definition onScroll_combined (st : State) : State := schedule CombinedFrame st.

(** The part of the Combined [onWheel] before the scheduling tail: the new
    [virtualScrollY] and whether [e.preventDefault()] was called. *)
Definition wheel_policy (cfg : Config) (deltaY : Q) (st : State) : Q * bool :=
  let vs := virtualScroll cfg in
  let w := window st in
  if Qlt_bool 5 (maxRealScroll w) then
    if atBottom w && Qlt_bool 0 deltaY then
      let v := virtualScrollY st + deltaY * sensitivity vs in
      (Qmin (maxOffset vs) v, false)
    else if Qlt_bool 0 (virtualScrollY st) && Qlt_bool deltaY 0 then
      let v := virtualScrollY st + deltaY * sensitivity vs in
      let v := Qmax 0 v in
      (v, Qlt_bool 0 v)
    else (virtualScrollY st, false)
  else
    let v := virtualScrollY st + deltaY * sensitivity vs in
    (Qmax 0 (Qmin (maxOffset vs) v), false).

(** [onWheel] of [setupCombinedScrollParallax]: the state it leaves and
    the event's [defaultPrevented]. *)
Definition onWheel_combined (cfg : Config) (deltaY : Q) (st : State)
  : State * bool :=
  let '(v, prevented) := wheel_policy cfg deltaY st in
  (schedule CombinedFrame (set_virtualScrollY v st), prevented).

(** Running one animation-frame callback. *)
Definition run_callback (cfg : Config) (cb : Callback) (st : State)
  : option State :=
  match cb with
  | RealFrame =>
      st' ← updateStarPositions cfg (scrollY (window st)) st;
      Some (set_ticking false st')
  | VirtualFrame =>
      st' ← updateStarPositions cfg (virtualScrollY st) st;
      Some (set_ticking false st')
  | CombinedFrame =>
      let '(p, st1) := getEffectiveScroll st in
      st' ← updateStarPositions cfg p st1;
      Some (set_ticking false st')
  end.

Fixpoint run_callbacks (cfg : Config) (cbs : list Callback) (st : State)
  : option State :=
  match cbs with
  | [] => Some st
  | cb :: rest => st' ← run_callback cfg cb st; run_callbacks cfg rest st'
  end.

(** An animation frame: the browser takes the queued callbacks and runs
    them in order. *)
Definition frame (cfg : Config) (st : State) : option State :=
  run_callbacks cfg (rafQueue st) (set_rafQueue [] st).

(** What happens between and at frames. *)
Inductive Event :=
| Scroll (y : Q)        (* the real scroll offset becomes y; 'scroll' fires *)
| Wheel (deltaY : Q)    (* a 'wheel' event *)
| Frame.                (* an animation frame *)

(** The listeners each setup registers. *)
Definition step (cfg : Config) (mode : ScrollMode) (ev : Event) (st : State)
  : option State :=
  match ev with
  | Scroll y =>
      let st := set_window (with_scrollY y (window st)) st in
      Some match mode with
           | RealOnly => onScroll_real st
           | VirtualOnly => st
           | Combined => onScroll_combined st
           end
  | Wheel d =>
      Some match mode with
           | RealOnly => st
           | VirtualOnly => onWheel_virtual cfg d st
           | Combined => fst (onWheel_combined cfg d st)
           end
  | Frame => frame cfg st
  end.

Fixpoint run (cfg : Config) (mode : ScrollMode) (evs : list Event) (st : State)
  : option State :=
  match evs with
  | [] => Some st
  | ev :: rest => st' ← step cfg mode ev st; run cfg mode rest st'
  end.

(** The state a setup function starts from: [virtualScrollY = 0] and
    [ticking = false], nothing queued, nothing rendered yet. *)
Definition boot (w : Window) (dom : DOM) : State :=
  {| window := w; document := dom; virtualScrollY := 0;
     ticking := false; rafQueue := []; rendered := [] |}.

(** The initial render each setup ends with. *)
Definition setup (cfg : Config) (mode : ScrollMode) (w : Window) (dom : DOM)
  : option State :=
  match mode with
  | RealOnly => updateStarPositions cfg (scrollY w) (boot w dom)
  | VirtualOnly => updateStarPositions cfg 0 (boot w dom)
  | Combined => updateStarPositions cfg 0 (boot w dom)
  end.

(** A whole session: setup, then the events. *)
Definition session (cfg : Config) (mode : ScrollMode) (w : Window) (dom : DOM)
    (evs : list Event) : option State :=
  st ← setup cfg mode w dom; run cfg mode evs st.

(** ** Notions used in the statements, example pages and sessions *)

(** The demo document used in the examples: layers 1, 2 and 4 exist,
    layers 3 and 5 are missing. *)
Definition sparse_document : DOM :=
  <[layer_id 1 := {| className := "star-layer star-layer-1"; transform := None |}]>
  (<[layer_id 2 := {| className := "star-layer star-layer-2"; transform := None |}]>
  (<[layer_id 4 := {| className := "star-layer star-layer-4"; transform := Some 3 |}]>
   ∅)).


(** The page of the scenarios at load time: 1000px of real scroll. *)
Definition tall_page : Window :=
  {| scrollY := 0; innerHeight := 800; scrollHeight := 1800 |}.

(** A state between frames on a page whose viewport is 800 high: real
    scroll offset [y], content height [h], virtual offset [v]. *)
Definition page_state (y h v : Q) : State :=
  {| window := {| scrollY := y; innerHeight := 800; scrollHeight := h |};
     document := sparse_document; virtualScrollY := v;
     ticking := false; rafQueue := []; rendered := [0] |}.

(** The state of the scenarios: a page with 1000px of real scroll,
    scrolled to the bottom, with the given virtual offset. *)
Definition at_bottom_state (v : Q) : State := page_state 1000 1800 v.

(** A page shorter than the viewport, in the middle of a virtual scroll. *)
Definition short_page_state (v : Q) : State := page_state 0 600 v.

(** The scenario page: the user scrolls to the bottom, wheels 100 further
    and then drags the scroll bar up to 400. *)
Definition scroll_up_session : option State :=
  session CONFIG Combined tall_page sparse_document
    [Scroll 1000; Frame; Wheel 100; Frame; Scroll 400].

(** The closure a mode's handlers pass to [requestAnimationFrame]. *)
Definition mode_callback (mode : ScrollMode) : Callback :=
  match mode with
  | RealOnly => RealFrame
  | VirtualOnly => VirtualFrame
  | Combined => CombinedFrame
  end.

(** The position a callback hands to [updateStarPositions] when it runs in
    state [st]. *)
Definition frame_position (cb : Callback) (st : State) : Q :=
  match cb with
  | RealFrame => scrollY (window st)
  | VirtualFrame => virtualScrollY st
  | CombinedFrame => fst (getEffectiveScroll st)
  end.

(** The virtual offset a callback leaves. *)
Definition frame_virtualScrollY (cb : Callback) (st : State) : Q :=
  match cb with
  | CombinedFrame => virtualScrollY (snd (getEffectiveScroll st))
  | _ => virtualScrollY st
  end.

(** Events other than frames. *)
Definition is_input (ev : Event) : bool :=
  match ev with Frame => false | _ => true end.

(** Events a mode has a listener for. *)
Definition listened (mode : ScrollMode) (ev : Event) : bool :=
  match mode, ev with
  | RealOnly, Scroll _ => true
  | VirtualOnly, Wheel _ => true
  | Combined, Scroll _ => true
  | Combined, Wheel _ => true
  | _, _ => false
  end.

(** Between frames either nothing is requested and [ticking] is off, or
    [ticking] is on and exactly one callback of the mode is queued. *)
Definition coalesced (mode : ScrollMode) (st : State) : Prop :=
  (ticking st = false /\ rafQueue st = []) \/
  (ticking st = true /\ rafQueue st = [mode_callback mode]).

(** Ten scroll events in a row. *)
Definition ten_scrolls : list Event :=
  [Scroll 10; Scroll 20; Scroll 30; Scroll 40; Scroll 50;
   Scroll 60; Scroll 70; Scroll 80; Scroll 90; Scroll 100].

(** The configuration contract: no negative sensitivity or maxOffset. *)
Definition sane (cfg : Config) : Prop :=
  0 <= sensitivity (virtualScroll cfg) /\ 0 <= maxOffset (virtualScroll cfg).

(** [x] lies within [0, maxOffset]. *)
Definition in_range (cfg : Config) (x : Q) : Prop :=
  0 <= x <= maxOffset (virtualScroll cfg).

(** What every reachable state satisfies, for C4. *)
Definition bounded (cfg : Config) (mode : ScrollMode) (st : State) : Prop :=
  in_range cfg (virtualScrollY st) /\
  coalesced mode st /\
  (mode = VirtualOnly -> Forall (in_range cfg) (rendered st)).

(** Wheel deltas of both signs, some far beyond the bounds. *)
Definition wild_wheels : list Event :=
  [Wheel 1500; Frame; Wheel 900; Wheel 100000; Frame; Wheel (-50); Frame;
   Wheel (-99999); Scroll 3; Wheel (7 # 3); Frame].

(** The real scroll offset an event reports is not negative. *)
Definition scroll_nonneg (ev : Event) : bool :=
  match ev with
  | Scroll y => Qle_bool 0 y
  | _ => true
  end.

(** What every reachable state satisfies, for C5. *)
Definition nonneg (cfg : Config) (st : State) : Prop :=
  in_range cfg (virtualScrollY st) /\
  0 <= scrollY (window st) /\
  Forall (Qle 0) (rendered st).

(** The scenarios in one session: down to the bottom, 100 forward, 30
    back, a long way back, then up the page. *)
Definition scenario_events : list Event :=
  [Scroll 500; Frame; Scroll 1000; Frame; Wheel 100; Frame; Wheel (-30);
   Frame; Wheel (-5000); Frame; Scroll 400; Wheel (-20); Frame].

(** The handlers never change the height of the page or of the viewport. *)
Definition same_page (w : Window) (st : State) : Prop :=
  innerHeight (window st) = innerHeight w /\
  scrollHeight (window st) = scrollHeight w.

(** ** Counting events and renders *)

Definition is_frame (ev : Event) : bool :=
  match ev with Frame => true | _ => false end.

(** The number of events of [evs] that satisfy [f]. *)
Definition count_events (f : Event -> bool) (evs : list Event) : nat :=
  length (List.filter f evs).

(** Renders already owed to the next frame: 1 while [ticking] is on. *)
Definition pending_renders (st : State) : nat :=
  if ticking st then 1%nat else 0%nat.

(** The real scroll offsets a RealOnly session can have seen: the one at
    load time and those the scroll events of [evs] reported. *)
Definition reported_offset (w : Window) (evs : list Event) (p : Q) : Prop :=
  p = scrollY w \/ Scroll p ∈ evs.

(** Wheel events and frames: what a page that cannot scroll receives. *)
Definition not_scroll (ev : Event) : bool :=
  match ev with Scroll _ => false | _ => true end.

(** Combined mode on one side, the virtual mode on the other, in step:
    the same virtual offset and [ticking], matching frame queues, and
    equal positions rendered so far. *)
Definition in_step (sc sv : State) : Prop :=
  window sc = window sv /\
  virtualScrollY sc = virtualScrollY sv /\
  ticking sc = ticking sv /\
  coalesced Combined sc /\
  coalesced VirtualOnly sv /\
  Forall2 Qeq (rendered sc) (rendered sv).

(** Wheel deltas of both signs with frames in between, no scroll event. *)
Definition wild_wheels_only : list Event :=
  [Wheel 1500; Frame; Wheel 900; Wheel 100000; Frame; Wheel (-50); Frame;
   Wheel (-99999); Wheel (7 # 3); Frame; Frame].

(** ** Star generation *)

(** The part of CONFIG the generator reads: [starCount], [effects],
    [twinkle] and [drift]. *)
Record Counts := {
  count1 : nat;
  count2 : nat;
  count3 : nat;
  count4 : nat;
  count5 : nat
}.

Record Effects := {
  twinkleChance : Q;
  driftChance : Q
}.

Record Timing := {
  durationMin : Q;
  durationMax : Q;
  delayMax : Q
}.

Record StarConfig := {
  starCount : Counts;
  effects : Effects;
  twinkle : Timing;
  drift : Timing
}.

Definition STAR_CONFIG : StarConfig := {|
  starCount := {| count1 := 30; count2 := 60; count3 := 100;
                  count4 := 180; count5 := 300 |};
  effects := {| twinkleChance := 30 # 100; driftChance := 40 # 100 |};
  twinkle := {| durationMin := 2; durationMax := 5; delayMax := 5 |};
  drift := {| durationMin := 8; durationMax := 20; delayMax := 5 |}
|}.

(** [CONFIG.starCount[`layer${i}`]] as a loop bound.  A missing key reads
    as [undefined], and [i < undefined] is false: no iteration. *)
Definition count_field (t : Counts) (i : nat) : nat :=
  match i with
  | 1%nat => count1 t
  | 2%nat => count2 t
  | 3%nat => count3 t
  | 4%nat => count4 t
  | 5%nat => count5 t
  | _ => 0%nat
  end.

(** One entry of the [animation] shorthand the code writes:
    [`twinkle ${duration}s infinite`] has no timing function and no delay,
    [`${name} ${duration}s ease-in-out ${delay}s infinite`] has both. *)
Record Animation := {
  animationName : string;
  duration : Q;
  timingFunction : string;
  delay : option Q
}.

(** A star: the values the code assigns to the new [div]. *)
Record Star := {
  star_className : string;
  star_left : Q;                      (* style.left, in percent *)
  star_top : Q;                       (* style.top, in percent *)
  star_scale : Q;                     (* style.transform = scale(..) *)
  star_animation : list Animation;    (* style.animation; [] is '' *)
  star_animationDelay : option Q      (* style.animationDelay, seconds *)
}.

(** [Math.random()]: the [n]-th number of the source [rng], and the
    position of the next one. *)
Definition random (rng : nat -> Q) (n : nat) : Q * nat := (rng n, S n).

Definition driftAnimations : list string :=
  ["driftLeft"; "driftRight"; "driftWave"; "driftDiagonal"].

(** [array[z]] for an integer [z]: [None] ([undefined]) out of range. *)
Definition array_get {A} (l : list A) (z : Z) : option A :=
  if (z <? 0)%Z then None else l !! Z.to_nat z.

(** [`${x}`] for a string or [undefined]. *)
Definition template (x : option string) : string := default "undefined" x.

(** The body of the loop of [generateStars] up to [appendChild]: the new
    star and the position in the random source afterwards. *)
Definition generateStar (scfg : StarConfig) (rng : nat -> Q) (n : nat)
  : Star * nat :=
  let '(r, n) := random rng n in
  let left := r * 100 in
  let '(r, n) := random rng n in
  let top := r * 100 in
  let '(r, n) := random rng n in
  let sizeVariation := (5 # 10) + r * 1 in
  let '(r, n) := random rng n in
  let '(animation, animationDelay, n) :=
    if Qlt_bool r (twinkleChance (effects scfg)) then
      let '(r, n) := random rng n in
      let twinkleDuration :=
        durationMin (twinkle scfg)
        + r * (durationMax (twinkle scfg) - durationMin (twinkle scfg)) in
      let '(r, n) := random rng n in
      ([{| animationName := "twinkle"; duration := twinkleDuration;
           timingFunction := ""; delay := None |}],
       Some (r * delayMax (twinkle scfg)), n)
    else ([], None, n) in
  let '(r, n) := random rng n in
  let '(animation, n) :=
    if Qlt_bool r (driftChance (effects scfg)) then
      let '(r, n) := random rng n in
      let randomDrift :=
        array_get driftAnimations
          (Qfloor (r * inject_Z (Z.of_nat (length driftAnimations)))) in
      let '(r, n) := random rng n in
      let driftDuration :=
        durationMin (drift scfg)
        + r * (durationMax (drift scfg) - durationMin (drift scfg)) in
      let '(r, n) := random rng n in
      let driftDelay := r * delayMax (drift scfg) in
      let entry :=
        {| animationName := template randomDrift; duration := driftDuration;
           timingFunction := "ease-in-out"; delay := Some driftDelay |} in
      (match animation with
       | [] => [entry]
       | _ => animation ++ [entry]
       end, n)
    else (animation, n) in
  ({| star_className := "star"; star_left := left; star_top := top;
      star_scale := sizeVariation; star_animation := animation;
      star_animationDelay := animationDelay |}, n).

(** ** The page around the layers *)

(** A child of an element: another element, by id, or a star. *)
Inductive Node :=
| ElementNode (id : string)
| StarNode (s : Star).

(** The page as [createStarBackground] sees it: the elements by id, the
    children appended to them, and the ids of the children of [body],
    first child first. *)
Record Page := {
  page_elements : DOM;
  page_children : gmap string (list Node);
  page_body : list string
}.

(** [document.createElement('div')] with its [className] and [id] set.
    Nothing reads the document before the container is inserted, so the
    element is entered under its id at once.  This is what
    [getElementById] finds afterwards when the id is not taken yet
    ([fresh_ids] below).  When the page already has an element with the
    id, which of the two [getElementById] finds depends on their order in
    the tree, which a [Page] does not record; nothing is stated for such
    pages. *)
Definition createElement (cls id : string) (pg : Page) : Page :=
  {| page_elements := <[id := {| className := cls; transform := None |}]>
                   (page_elements pg);
     page_children := <[id := []]> (page_children pg);
     page_body := page_body pg |}.

(** [parent.appendChild(node)]; a [null] parent throws. *)
Definition appendChild (parent : option string) (nd : Node) (pg : Page)
  : option Page :=
  match parent with
  | Some id =>
      Some {| page_elements := page_elements pg;
              page_children :=
                <[id := default [] (page_children pg !! id) ++ [nd]]> (page_children pg);
              page_body := page_body pg |}
  | None => None
  end.

(** [document.body.insertBefore(el, document.body.firstChild)] *)
Definition insertFirst (id : string) (pg : Page) : Page :=
  {| page_elements := page_elements pg; page_children := page_children pg;
     page_body := id :: page_body pg |}.

(** [generateStars(layer, count)] *)
Fixpoint generateStars (scfg : StarConfig) (rng : nat -> Q)
    (layer : option string) (count : nat) (pg : Page) (n : nat)
  : option (Page * nat) :=
  match count with
  | O => Some (pg, n)
  | S count' =>
      let '(star, n') := generateStar scfg rng n in
      pg' ← appendChild layer (StarNode star) pg;
      generateStars scfg rng layer count' pg' n'
  end.

Definition container_id : string := "star-container".

(** [`star-layer star-layer-${i}`] *)
Definition layer_className (i : nat) : string :=
  "star-layer star-layer-" +:+ pretty i.

(** The first loop of [createStarBackground], over the indices [idxs]. *)
Fixpoint create_layers (idxs : list nat) (pg : Page) : option Page :=
  match idxs with
  | [] => Some pg
  | i :: rest =>
      let pg := createElement (layer_className i) (layer_id i) pg in
      pg' ← appendChild (Some container_id) (ElementNode (layer_id i)) pg;
      create_layers rest pg'
  end.

(** The second loop of [createStarBackground], over the indices [idxs]. *)
Fixpoint fill_layers (scfg : StarConfig) (rng : nat -> Q) (idxs : list nat)
    (pg : Page) (n : nat) : option (Page * nat) :=
  match idxs with
  | [] => Some (pg, n)
  | i :: rest =>
      let layer := getElementById (page_elements pg) (layer_id i) in
      '(pg', n') ← generateStars scfg rng layer
                     (count_field (starCount scfg) i) pg n;
      fill_layers scfg rng rest pg' n'
  end.

(** [createStarBackground()]: the page it leaves and the position in the
    random source. *)
Definition createStarBackground (scfg : StarConfig) (rng : nat -> Q)
    (pg : Page) (n : nat) : option (Page * nat) :=
  let pg := createElement "star-container" container_id pg in
  pg ← create_layers [5; 4; 3; 2; 1]%nat pg;
  let pg := insertFirst container_id pg in
  fill_layers scfg rng (seq 1 5) pg n.

(** ** The scroll gate and [init] *)

(** [document.body.style.overflow] and
    [document.documentElement.style.overflow]. *)
Record Overflow := {
  body_overflow : string;
  html_overflow : string
}.

Definition disableScroll (ov : Overflow) : Overflow :=
  {| body_overflow := "hidden"; html_overflow := "hidden" |}.

Definition enableScroll (ov : Overflow) : Overflow :=
  {| body_overflow := ""; html_overflow := "" |}.

(** The argument of [init]; [None] is a property left out. *)
Record Options := {
  opt_scrollable : option bool;
  opt_virtualScroll : option bool
}.

(** What [setup] leaves behind. *)
Record Running := {
  running_mode : ScrollMode;
  running_state : State;
  running_children : gmap string (list Node);
  running_body : list string;
  running_overflow : Overflow;
  running_random : nat
}.

(** The inner [setup] of [init]. *)
Definition setup_page (scfg : StarConfig) (cfg : Config) (rng : nat -> Q)
    (scrollable virtualScroll_opt : bool)
    (w : Window) (pg : Page) (ov : Overflow) (n : nat) : option Running :=
  '(pg', n') ← createStarBackground scfg rng pg n;
  let mode := init_mode virtualScroll_opt in
  st ← setup cfg mode w (page_elements pg');
  Some {| running_mode := mode; running_state := st;
          running_children := page_children pg'; running_body := page_body pg';
          running_overflow := if negb scrollable then disableScroll ov else ov;
          running_random := n' |}.

(** The result of [init]: the module variable [useVirtualScroll], and the
    running system, or [None] while the document is loading and [setup]
    waits for DOMContentLoaded. *)
Record Initialized := {
  useVirtualScroll : bool;
  started : option Running
}.

(** What [init] is called with: nothing (or [undefined]), [null], or an
    object. *)
Inductive InitArg :=
| NoArgument
| NullArgument
| OptionsArgument (options : Options).

(** [options = {}] for a missing argument, and the destructuring
    [const { scrollable = true, virtualScroll = false } = options], which
    throws on [null]. *)
Definition destructure (arg : InitArg) : option (bool * bool) :=
  match arg with
  | NoArgument => Some (true, false)
  | NullArgument => None
  | OptionsArgument options =>
      Some (default true (opt_scrollable options),
            default false (opt_virtualScroll options))
  end.

(** [init(options)] with [document.readyState === 'loading'] given as
    [loading]. *)
Definition init (scfg : StarConfig) (cfg : Config) (rng : nat -> Q)
    (arg : InitArg) (loading : bool)
    (w : Window) (pg : Page) (ov : Overflow) (n : nat) : option Initialized :=
  '(scrollable, virtualScroll_opt) ← destructure arg;
  if loading then
    Some {| useVirtualScroll := virtualScroll_opt; started := None |}
  else
    r ← setup_page scfg cfg rng scrollable virtualScroll_opt w pg ov n;
    Some {| useVirtualScroll := virtualScroll_opt; started := Some r |}.

(** The DOMContentLoaded listener [init] registers while loading: [setup]
    with the options [init] was called with. *)
Definition onDOMContentLoaded (scfg : StarConfig) (cfg : Config)
    (rng : nat -> Q) (options : Options)
    (w : Window) (pg : Page) (ov : Overflow) (n : nat) : option Running :=
  setup_page scfg cfg rng (default true (opt_scrollable options))
    (default false (opt_virtualScroll options)) w pg ov n.

(** ** Notions used in the statements about stars *)

(** A source of random numbers as [Math.random] promises them. *)
Definition unit_interval (rng : nat -> Q) : Prop :=
  forall n, 0 <= rng n < 1.

(** Timing settings with an ordered duration range and a delay that is
    not negative. *)
Definition timing_ok (t : Timing) : Prop :=
  durationMin t <= durationMax t /\ 0 <= delayMax t.

(** An entry of [style.animation] as the configuration allows it. *)
Definition animation_ok (scfg : StarConfig) (a : Animation) : Prop :=
  (animationName a = "twinkle" /\
   timingFunction a = "" /\
   delay a = None /\
   durationMin (twinkle scfg) <= duration a <= durationMax (twinkle scfg)) \/
  (animationName a ∈ driftAnimations /\
   timingFunction a = "ease-in-out" /\
   (exists dl, delay a = Some dl /\ 0 <= dl <= delayMax (drift scfg)) /\
   durationMin (drift scfg) <= duration a <= durationMax (drift scfg)).

(** A star as the configuration allows it. *)
Definition star_ok (scfg : StarConfig) (s : Star) : Prop :=
  star_className s = "star" /\
  0 <= star_left s <= 100 /\
  0 <= star_top s <= 100 /\
  5 # 10 <= star_scale s <= 15 # 10 /\
  Forall (animation_ok scfg) (star_animation s) /\
  (length (star_animation s) <= 2)%nat /\
  match star_animationDelay s with
  | Some dl => 0 <= dl <= delayMax (twinkle scfg)
  | None => True
  end.

Definition has_twinkle (s : Star) : Prop :=
  Exists (fun a => animationName a = "twinkle") (star_animation s).

Definition has_drift (s : Star) : Prop :=
  Exists (fun a => timingFunction a = "ease-in-out") (star_animation s).

(** A random source for the examples: 0, 1/8, .., 6/8, 0, 1/8, .. *)
Definition demo_rng (n : nat) : Q := Z.of_nat (n mod 7) # 8.

Definition empty_page : Page :=
  {| page_elements := ∅; page_children := ∅; page_body := [] |}.

(** A random source that stays below both shipped chances: 0, 1/8, 2/8,
    0, .. ; every star twinkles and drifts. *)
Definition low_rng (n : nat) : Q := Z.of_nat (n mod 3) # 8.

(** The shipped settings with twinkling switched off and drifting forced. *)
Definition drift_only_config : StarConfig := {|
  starCount := starCount STAR_CONFIG;
  effects := {| twinkleChance := 0; driftChance := 1 |};
  twinkle := twinkle STAR_CONFIG;
  drift := drift STAR_CONFIG
|}.

(** The shipped settings with twinkling forced and drifting switched off. *)
Definition twinkle_only_config : StarConfig := {|
  starCount := starCount STAR_CONFIG;
  effects := {| twinkleChance := 1; driftChance := 0 |};
  twinkle := twinkle STAR_CONFIG;
  drift := drift STAR_CONFIG
|}.

(** No element of the page has the id of the container or of a layer, as
    in a document whose ids are unique before the stars are added. *)
Definition fresh_ids (pg : Page) : Prop :=
  page_elements pg !! container_id = None /\
  forall i, (1 <= i <= 5)%nat -> page_elements pg !! layer_id i = None.

(** A page with a header and a main part, and no stars yet. *)
Definition plain_page : Page :=
  {| page_elements :=
       <["header" := {| className := "top"; transform := None |}]>
       (<["main" := {| className := "content"; transform := None |}]> ∅);
     page_children := ∅;
     page_body := ["header"; "main"] |}.

(** ** The scroll spacer of the earlier revision *)

(** The spacer [div]: its [style.pointerEvents] and its [style.height]
    in px, if one was set. *)
Record Spacer := {
  spacer_pointerEvents : string;
  spacer_height : option Q
}.

(** The part of the page [ensureScrollableHeight] touches: the ids of the
    children of [body] in order, and the element with id
    'star-scroll-spacer', if there is one. *)
Record Body := {
  body_children : list string;
  body_spacer : option Spacer
}.

Definition spacer_id : string := "star-scroll-spacer".

(** [ensureScrollableHeight(minScreens = 3)]; [None] is the argument left
    out.  The window is what the browser measures at the time of the
    call. *)
Definition ensureScrollableHeight (minScreens_arg : option Q) (w : Window)
    (b : Body) : Body :=
  let minScreens := default 3 minScreens_arg in
  let minHeight := innerHeight w * minScreens in
  let currentHeight := scrollHeight w in
  if Qlt_bool currentHeight minHeight then
    let '(spacer, kids) :=
      match body_spacer b with
      | Some spacer => (spacer, body_children b)
      | None =>
          ({| spacer_pointerEvents := "none"; spacer_height := None |},
           body_children b ++ [spacer_id])
      end in
    {| body_children := kids;
       body_spacer :=
         Some {| spacer_pointerEvents := spacer_pointerEvents spacer;
                 spacer_height := Some (minHeight - currentHeight) |} |}
  else b.

(** Calls of [ensureScrollableHeight] one after the other, each with its
    argument and the window as measured at that time. *)
Fixpoint ensure_calls (calls : list (option Q * Window)) (b : Body) : Body :=
  match calls with
  | [] => b
  | (arg, w) :: rest => ensure_calls rest (ensureScrollableHeight arg w b)
  end.

(** The page is at least [minScreens] viewports high at a call. *)
Definition tall_enough (call : option Q * Window) : Prop :=
  innerHeight (snd call) * default 3 (fst call) <= scrollHeight (snd call).

(** The windows of the examples at two sizes of the viewport. *)
Definition resize_calls : list (option Q * Window) :=
  [(None, {| scrollY := 0; innerHeight := 800; scrollHeight := 1000 |});
   (None, {| scrollY := 0; innerHeight := 800; scrollHeight := 2400 |});
   (Some 4, {| scrollY := 0; innerHeight := 1000; scrollHeight := 2400 |})].

(** With no frame requested, a virtual offset other than 0 is only found
    at the bottom of the page. *)
Definition settled (st : State) : Prop :=
  ticking st = false ->
  virtualScrollY st = 0 \/ atBottom (window st) = true.

(** ** Doubles *)






(** * Properties *)

(** ** Comparisons and clamps *)

Lemma Qlt_bool_iff a b : Qlt_bool a b = true <-> a < b.
Proof.
  unfold Qlt_bool. rewrite negb_true_iff, <- not_true_iff_false, Qle_bool_iff.
  split; [apply Qnot_le_lt | apply Qlt_not_le].
Qed.

Lemma Qlt_bool_false a b : Qlt_bool a b = false <-> b <= a.
Proof.
  unfold Qlt_bool. rewrite negb_false_iff. apply Qle_bool_iff.
Qed.

Lemma Qle_bool_false a b : Qle_bool a b = false <-> b < a.
Proof.
  rewrite <- not_true_iff_false, Qle_bool_iff.
  split; [apply Qnot_le_lt | apply Qlt_not_le].
Qed.

(** Turn the boolean tests among the hypotheses into inequalities. *)
Ltac q_props :=
  repeat match goal with
  | H : Qlt_bool _ _ = true |- _ => apply Qlt_bool_iff in H
  | H : Qlt_bool _ _ = false |- _ => apply Qlt_bool_false in H
  | H : Qle_bool _ _ = true |- _ => apply Qle_bool_iff in H
  | H : Qle_bool _ _ = false |- _ => apply Qle_bool_false in H
  | H : _ && _ = true |- _ => apply andb_true_iff in H; destruct H
  | H : _ && _ = false |- _ => apply andb_false_iff in H; destruct H
  end.

(** Case analysis on the conditions of the [if]s of the goal. *)
Ltac q_branches :=
  repeat match goal with
  | |- context [if ?c then _ else _] => destruct c eqn:?; simpl
  end;
  q_props.

(** Split every [Qmax] and [Qmin] in sight into its two cases. *)
Ltac q_clamp_at a b spec op :=
  let m := fresh "m" in
  destruct (spec a b) as [[? ?] | [? ?]];
  set (m := op a b) in *; clearbody m.

Ltac q_clamps :=
  repeat match goal with
  | |- context [Qmax ?a ?b] => q_clamp_at a b Q.max_spec Qmax
  | |- context [Qmin ?a ?b] => q_clamp_at a b Q.min_spec Qmin
  | _ : context [Qmax ?a ?b] |- _ => q_clamp_at a b Q.max_spec Qmax
  | _ : context [Qmin ?a ?b] |- _ => q_clamp_at a b Q.min_spec Qmin
  end.

Lemma Qclamp_bounds lo hi x : lo <= hi -> lo <= Qmax lo (Qmin hi x) <= hi.
Proof. intros. q_clamps; lra. Qed.

(** ** The renderer *)

Lemma layer_id_inj i j : layer_id i = layer_id j -> i = j.
Proof.
  unfold layer_id. intros H.
  apply (inj (String.append "star-layer-")) in H.
  by apply (inj pretty) in H.
Qed.

Lemma update_layer_alter cfg p i (dom : DOM) :
  update_layer cfg p i dom
  = Some (alter (with_transform (layer_offset cfg p i)) (layer_id i) dom).
Proof.
  unfold update_layer, getElementById.
  destruct (dom !! layer_id i) as [e|] eqn:Hl; simpl; [done|].
  by rewrite alter_id'.
Qed.

Lemma update_layers_total cfg p idxs (dom : DOM) :
  exists dom', update_layers cfg p idxs dom = Some dom'.
Proof.
  revert dom. induction idxs as [|i rest IH]; intros dom; simpl; [eauto|].
  rewrite update_layer_alter. simpl. apply IH.
Qed.

Lemma update_layers_other cfg p idxs (dom dom' : DOM) id :
  update_layers cfg p idxs dom = Some dom' ->
  (forall i, i ∈ idxs -> id <> layer_id i) ->
  dom' !! id = dom !! id.
Proof.
  revert dom. induction idxs as [|i rest IH]; intros dom; simpl.
  - by intros [= ->] _.
  - rewrite update_layer_alter. simpl. intros Hrun Hid.
    rewrite (IH _ Hrun); [|intros j Hj; apply Hid; by right].
    rewrite lookup_alter_ne; [done|].
    intros Heq. by apply (Hid i); [left|].
Qed.

Lemma update_layers_layer cfg p idxs (dom dom' : DOM) i :
  update_layers cfg p idxs dom = Some dom' ->
  NoDup idxs -> i ∈ idxs ->
  dom' !! layer_id i
  = with_transform (layer_offset cfg p i) <$> dom !! layer_id i.
Proof.
  revert dom. induction idxs as [|j rest IH]; intros dom; simpl.
  - intros _ _ Hin. by apply elem_of_nil in Hin.
  - rewrite update_layer_alter. simpl. intros Hrun Hnd Hin.
    apply NoDup_cons in Hnd as [Hj Hnd].
    apply elem_of_cons in Hin as [->|Hin].
    + rewrite (update_layers_other _ _ _ _ _ _ Hrun).
      * by rewrite lookup_alter_eq.
      * intros k Hk Heq. apply layer_id_inj in Heq. by subst.
    + rewrite (IH _ Hrun Hnd Hin).
      rewrite lookup_alter_ne; [done|].
      intros Heq. apply layer_id_inj in Heq. by subst.
Qed.

Lemma layer_indices i : i ∈ seq 1 5 <-> (1 <= i <= 5)%nat.
Proof. rewrite elem_of_seq. lia. Qed.

Lemma updateStarPositions_dom_total cfg p (dom : DOM) :
  exists dom', updateStarPositions_dom cfg p dom = Some dom'.
Proof. apply update_layers_total. Qed.

(** C9: for every position and every document, whichever layers are
    missing, the render pass returns normally; a missing layer stays
    missing, every present layer gets the offset [-position * coefficient]
    (and keeps its other properties), and no other element is touched. *)
Theorem updateStarPositions_skips_missing_layers cfg p (dom : DOM) :
  exists dom',
    updateStarPositions_dom cfg p dom = Some dom' /\
    (forall i, (1 <= i <= 5)%nat ->
       match dom !! layer_id i with
       | None => dom' !! layer_id i = None
       | Some e =>
           dom' !! layer_id i
           = Some {| className := className e;
                     transform :=
                       Some (- p * layer_field (parallax cfg) i) |}
       end) /\
    (forall id, (forall i, (1 <= i <= 5)%nat -> id <> layer_id i) ->
       dom' !! id = dom !! id).
Proof.
  destruct (updateStarPositions_dom_total cfg p dom) as [dom' Hrun].
  exists dom'. split; [done|]. split.
  - intros i Hi.
    rewrite (update_layers_layer _ _ _ _ _ _ Hrun);
      [|apply NoDup_seq|by apply layer_indices].
    by destruct (dom !! layer_id i).
  - intros id Hid. apply (update_layers_other _ _ _ _ _ _ Hrun).
    intros i Hi. apply Hid. by apply layer_indices.
Qed.

Example render_sparse_document :
  exists dom',
    updateStarPositions_dom CONFIG 200 sparse_document = Some dom' /\
    (transform <$> dom' !! layer_id 1) = Some (Some (-200 * 1)) /\
    dom' !! layer_id 3 = None /\
    (transform <$> dom' !! layer_id 4) = Some (Some (-200 * (25 # 100))) /\
    dom' !! layer_id 5 = None.
Proof.
  eexists. split; [reflexivity|]. vm_compute. done.
Qed.

(** ** Ordering of the layer offsets *)












(** ** The wheel and scroll handlers *)

Lemma schedule_window cb st : window (schedule cb st) = window st.
Proof. unfold schedule. by destruct (ticking st). Qed.

Lemma schedule_virtualScrollY cb st :
  virtualScrollY (schedule cb st) = virtualScrollY st.
Proof. unfold schedule. by destruct (ticking st). Qed.

Lemma schedule_rendered cb st : rendered (schedule cb st) = rendered st.
Proof. unfold schedule. by destruct (ticking st). Qed.

Lemma schedule_document cb st : document (schedule cb st) = document st.
Proof. unfold schedule. by destruct (ticking st). Qed.

Lemma onWheel_combined_virtualScrollY cfg d st :
  virtualScrollY (fst (onWheel_combined cfg d st))
  = fst (wheel_policy cfg d st).
Proof.
  unfold onWheel_combined. destruct (wheel_policy cfg d st) as [v b]. simpl.
  by rewrite schedule_virtualScrollY.
Qed.

Lemma onWheel_combined_window cfg d st :
  window (fst (onWheel_combined cfg d st)) = window st.
Proof.
  unfold onWheel_combined. destruct (wheel_policy cfg d st) as [v b]. simpl.
  by rewrite schedule_window.
Qed.

Lemma onWheel_combined_prevented cfg d st :
  snd (onWheel_combined cfg d st) = snd (wheel_policy cfg d st).
Proof.
  unfold onWheel_combined. by destruct (wheel_policy cfg d st) as [v b].
Qed.

(** C1: Combined mode, scrollable content, real scroll at its maximum and
    virtualOffset 0; a wheel delta of +100 with sensitivity 1 and maxOffset
    2000 sets virtualOffset to 100 and the effective position to
    maxRealScroll + 100. *)
Theorem combined_forward_wheel_at_bottom cfg st :
  sensitivity (virtualScroll cfg) == 1 ->
  maxOffset (virtualScroll cfg) == 2000 ->
  5 < maxRealScroll (window st) ->
  scrollY (window st) == maxRealScroll (window st) ->
  virtualScrollY st == 0 ->
  virtualScrollY (fst (onWheel_combined cfg 100 st)) == 100 /\
  fst (getEffectiveScroll (fst (onWheel_combined cfg 100 st)))
    == maxRealScroll (window st) + 100.
Proof.
  intros Hs Hm Hscr Hbot Hv.
  assert (Hpol : fst (wheel_policy cfg 100 st) == 100).
  { unfold wheel_policy, atBottom.
    set (M := maxRealScroll (window st)) in *. clearbody M.
    q_branches; q_clamps; try lra; try nra. }
  split.
  - by rewrite onWheel_combined_virtualScrollY.
  - unfold getEffectiveScroll.
    rewrite onWheel_combined_window, onWheel_combined_virtualScrollY.
    unfold atBottom.
    set (M := maxRealScroll (window st)) in *. clearbody M.
    q_branches; lra.
Qed.

Lemma combined_forward_wheel_at_bottom_witness :
  virtualScrollY (fst (onWheel_combined CONFIG 100 (at_bottom_state 0)))
    == 100 /\
  fst (getEffectiveScroll (fst (onWheel_combined CONFIG 100 (at_bottom_state 0))))
    == maxRealScroll (window (at_bottom_state 0)) + 100.
Proof.
  apply (combined_forward_wheel_at_bottom CONFIG (at_bottom_state 0));
    reflexivity.
Defined.

(** C2: Combined mode, scrollable content, virtualOffset > 0 and a negative
    wheel delta: virtualOffset becomes virtualOffset - |delta| * sensitivity
    clamped below at 0, and the event is flagged prevent-default exactly
    when the new virtualOffset is still > 0. *)
Theorem combined_backward_wheel_retracts cfg d st :
  5 < maxRealScroll (window st) ->
  0 < virtualScrollY st ->
  d < 0 ->
  virtualScrollY (fst (onWheel_combined cfg d st))
    == Qmax 0 (virtualScrollY st - Qabs d * sensitivity (virtualScroll cfg)) /\
  (snd (onWheel_combined cfg d st) = true
   <-> 0 < virtualScrollY (fst (onWheel_combined cfg d st))).
Proof.
  intros Hscr Hv Hd.
  rewrite onWheel_combined_virtualScrollY, onWheel_combined_prevented.
  assert (Habs : Qabs d == - d) by (apply Qabs_neg; lra).
  unfold wheel_policy.
  destruct (Qlt_bool 5 (maxRealScroll (window st))) eqn:E1;
    [|q_props; lra].
  destruct (atBottom (window st) && Qlt_bool 0 d) eqn:E2;
    [q_props; lra|].
  destruct (Qlt_bool 0 (virtualScrollY st) && Qlt_bool d 0) eqn:E3;
    [|q_props; lra].
  simpl. split.
  - rewrite Habs.
    apply Q.max_compat; [reflexivity|]. ring.
  - apply Qlt_bool_iff.
Qed.

Lemma combined_backward_wheel_retracts_witness :
  virtualScrollY (fst (onWheel_combined CONFIG (-30) (at_bottom_state 100)))
    == 70 /\
  snd (onWheel_combined CONFIG (-30) (at_bottom_state 100)) = true.
Proof.
  destruct (combined_backward_wheel_retracts CONFIG (-30) (at_bottom_state 100))
    as [Hv Hp]; [reflexivity ..|].
  split.
  - rewrite Hv. reflexivity.
  - apply Hp. rewrite Hv. reflexivity.
Defined.

(** The retraction that reaches 0 is not flagged: the clamp stops at 0 and
    the wheel goes back to the page. *)
Example combined_backward_wheel_reaches_zero :
  onWheel_combined CONFIG (-150) (at_bottom_state 100)
  = (schedule CombinedFrame (set_virtualScrollY 0 (at_bottom_state 100)),
     false).
Proof. reflexivity. Qed.

(** C10: Combined mode on a page that is not scrollable (maximum real
    scroll within the 5-unit tolerance): whatever the delta and the current
    virtualOffset, the wheel handler does not call preventDefault. *)
Theorem combined_wheel_not_prevented_when_not_scrollable cfg d st :
  maxRealScroll (window st) <= 5 ->
  snd (onWheel_combined cfg d st) = false.
Proof.
  intros Hshort. rewrite onWheel_combined_prevented. unfold wheel_policy.
  destruct (Qlt_bool 5 (maxRealScroll (window st))) eqn:E; [|done].
  q_props. lra.
Qed.

Lemma combined_wheel_not_prevented_when_not_scrollable_witness :
  snd (onWheel_combined CONFIG (-30) (short_page_state 100)) = false.
Proof.
  apply (combined_wheel_not_prevented_when_not_scrollable
           CONFIG (-30) (short_page_state 100)).
  vm_compute. discriminate.
Defined.

(** ** Reading the effective position *)

(** C6, as stated, fails: in the state reached by [scroll_up_session],
    reading the effective position resets virtualOffset from 100 to 0; and
    two states with the same real scroll offset and the same virtualOffset
    give different results when their pages differ in height. *)
Lemma getEffectiveScroll_is_not_a_pure_read :
  (exists st,
     scroll_up_session = Some st /\
     virtualScrollY st = 100 /\
     virtualScrollY (snd (getEffectiveScroll st)) = 0 /\
     snd (getEffectiveScroll st) <> st) /\
  scrollY (window (page_state 400 1800 100))
    = scrollY (window (page_state 400 1200 100)) /\
  virtualScrollY (page_state 400 1800 100)
    = virtualScrollY (page_state 400 1200 100) /\
  fst (getEffectiveScroll (page_state 400 1800 100)) = 400 /\
  fst (getEffectiveScroll (page_state 400 1200 100)) = 400 + 100.
Proof.
  split; [|by vm_compute].
  eexists. split; [vm_compute; reflexivity|].
  split; [reflexivity|]. split; [reflexivity|].
  intros H. apply (f_equal virtualScrollY) in H. discriminate H.
Qed.

(** C6, amended: reading the effective position touches no state other
    than virtualOffset.  Within the 5-unit tolerance of the maximum
    scrollable offset it leaves the state as it is and returns
    realScroll + virtualOffset; otherwise it resets virtualOffset to 0 and
    returns realScroll.  The result is determined by the real scroll
    offset, virtualOffset and the maximum scrollable offset. *)
Theorem getEffectiveScroll_effect st :
  (window (snd (getEffectiveScroll st)) = window st /\
   document (snd (getEffectiveScroll st)) = document st /\
   ticking (snd (getEffectiveScroll st)) = ticking st /\
   rafQueue (snd (getEffectiveScroll st)) = rafQueue st /\
   rendered (snd (getEffectiveScroll st)) = rendered st) /\
  (maxRealScroll (window st) - 5 <= scrollY (window st) ->
   getEffectiveScroll st
   = (scrollY (window st) + virtualScrollY st, st)) /\
  (scrollY (window st) < maxRealScroll (window st) - 5 ->
   getEffectiveScroll st
   = (scrollY (window st), set_virtualScrollY 0 st)) /\
  (forall st2,
     scrollY (window st2) == scrollY (window st) ->
     virtualScrollY st2 == virtualScrollY st ->
     maxRealScroll (window st2) == maxRealScroll (window st) ->
     fst (getEffectiveScroll st2) == fst (getEffectiveScroll st)).
Proof.
  split; [|split; [|split]].
  - unfold getEffectiveScroll. by destruct (atBottom (window st)).
  - intros Hb. unfold getEffectiveScroll, atBottom.
    q_branches; [done|lra].
  - intros Hb. unfold getEffectiveScroll, atBottom.
    q_branches; [lra|done].
  - intros st2 Hy Hv Hm. unfold getEffectiveScroll, atBottom.
    q_branches; lra.
Qed.

(** ** The frame loop *)

Lemma updateStarPositions_spec cfg p st :
  exists st',
    updateStarPositions cfg p st = Some st' /\
    window st' = window st /\
    virtualScrollY st' = virtualScrollY st /\
    ticking st' = ticking st /\
    rafQueue st' = rafQueue st /\
    rendered st' = p :: rendered st.
Proof.
  unfold updateStarPositions.
  destruct (updateStarPositions_dom_total cfg p (document st)) as [dom' ->].
  simpl. eauto 10.
Qed.

Lemma run_callback_spec cfg cb st :
  exists st',
    run_callback cfg cb st = Some st' /\
    window st' = window st /\
    virtualScrollY st' = frame_virtualScrollY cb st /\
    ticking st' = false /\
    rafQueue st' = rafQueue st /\
    rendered st' = frame_position cb st :: rendered st.
Proof.
  destruct cb; simpl.
  - destruct (updateStarPositions_spec cfg (scrollY (window st)) st)
      as (st' & -> & ? & ? & ? & ? & ?).
    simpl. eauto 10.
  - destruct (updateStarPositions_spec cfg (virtualScrollY st) st)
      as (st' & -> & ? & ? & ? & ? & ?).
    simpl. eauto 10.
  - destruct (getEffectiveScroll_effect st) as ((Hw & _ & _ & Hq & Hr) & _).
    destruct (getEffectiveScroll st) as [p st1]. simpl in *.
    destruct (updateStarPositions_spec cfg p st1)
      as (st' & -> & ? & ? & ? & ? & ?).
    simpl. eexists. split; [done|]. repeat split; simpl; congruence.
Qed.

Lemma frame_idle cfg st : rafQueue st = [] -> frame cfg st = Some st.
Proof.
  unfold frame. intros Hq. destruct st. simpl in *. by subst.
Qed.

Lemma frame_pending cfg cb st :
  rafQueue st = [cb] ->
  exists st',
    frame cfg st = Some st' /\
    window st' = window st /\
    virtualScrollY st' = frame_virtualScrollY cb st /\
    ticking st' = false /\
    rafQueue st' = [] /\
    rendered st' = frame_position cb st :: rendered st.
Proof.
  unfold frame. intros ->. simpl.
  destruct (run_callback_spec cfg cb (set_rafQueue [] st))
    as (st' & -> & Hw & Hv & Ht & Hq & Hr).
  simpl. exists st'. split; [done|].
  repeat split; try done.
  - rewrite Hv. destruct cb; try done.
    simpl. unfold getEffectiveScroll. simpl.
    by destruct (atBottom (window st)).
  - rewrite Hr. destruct cb; try done.
    simpl. unfold getEffectiveScroll. simpl.
    by destruct (atBottom (window st)).
Qed.

Lemma run_callbacks_total cfg cbs st :
  exists st', run_callbacks cfg cbs st = Some st'.
Proof.
  revert st. induction cbs as [|cb rest IH]; intros st; simpl; [eauto|].
  destruct (run_callback_spec cfg cb st) as (st1 & -> & _). simpl. apply IH.
Qed.

Lemma step_total cfg mode ev st : exists st', step cfg mode ev st = Some st'.
Proof.
  destruct ev; simpl; eauto. apply run_callbacks_total.
Qed.

Lemma run_app cfg mode evs1 evs2 st :
  run cfg mode (evs1 ++ evs2) st
  = run cfg mode evs1 st ≫= run cfg mode evs2.
Proof.
  revert st. induction evs1 as [|ev rest IH]; intros st; simpl; [done|].
  destruct (step cfg mode ev st) as [st1|]; simpl; [apply IH|done].
Qed.

Lemma run_cons cfg mode ev evs st :
  run cfg mode (ev :: evs) st = step cfg mode ev st ≫= run cfg mode evs.
Proof. reflexivity. Qed.

Lemma run_total cfg mode evs st : exists st', run cfg mode evs st = Some st'.
Proof.
  revert st. induction evs as [|ev rest IH]; intros st; simpl; [eauto|].
  destruct (step_total cfg mode ev st) as [st1 ->]. simpl. apply IH.
Qed.

(** An invariant of the steps allowed by [ok] holds along every run of
    such steps. *)
Lemma run_invariant cfg mode (ok : Event -> Prop) (P : State -> Prop) :
  (forall ev st st',
     ok ev -> P st -> step cfg mode ev st = Some st' -> P st') ->
  forall evs st st',
    Forall ok evs -> P st -> run cfg mode evs st = Some st' -> P st'.
Proof.
  intros Hstep evs. induction evs as [|ev rest IH]; intros st st' Hok HP; simpl.
  - by intros [= <-].
  - apply Forall_cons in Hok as [Hev Hrest].
    destruct (step cfg mode ev st) as [st1|] eqn:Hs; simpl; [|done].
    apply IH; [done|]. by apply (Hstep ev st).
Qed.

Lemma run_callbacks_invariant cfg (P : State -> Prop) :
  (forall cb st st', P st -> run_callback cfg cb st = Some st' -> P st') ->
  forall cbs st st', P st -> run_callbacks cfg cbs st = Some st' -> P st'.
Proof.
  intros Hcb cbs. induction cbs as [|cb rest IH]; intros st st' HP; simpl.
  - by intros [= <-].
  - destruct (run_callback cfg cb st) as [st1|] eqn:Hs; simpl; [|done].
    apply IH. by apply (Hcb cb st).
Qed.

Lemma setup_spec cfg mode w dom :
  exists st,
    setup cfg mode w dom = Some st /\
    window st = w /\
    virtualScrollY st = 0 /\
    ticking st = false /\
    rafQueue st = [] /\
    rendered st = [match mode with RealOnly => scrollY w | _ => 0 end].
Proof.
  destruct mode; simpl.
  - destruct (updateStarPositions_spec cfg (scrollY w) (boot w dom))
      as (st & -> & ? & ? & ? & ? & ?). eauto 10.
  - destruct (updateStarPositions_spec cfg 0 (boot w dom))
      as (st & -> & ? & ? & ? & ? & ?). eauto 10.
  - destruct (updateStarPositions_spec cfg 0 (boot w dom))
      as (st & -> & ? & ? & ? & ? & ?). eauto 10.
Qed.

(** *** Coalescing *)

Lemma schedule_coalesced mode st :
  coalesced mode st ->
  coalesced mode (schedule (mode_callback mode) st) /\
  ticking (schedule (mode_callback mode) st) = true.
Proof.
  unfold coalesced, schedule.
  intros [[Ht Hq] | [Ht Hq]]; rewrite Ht; simpl.
  - rewrite Hq. split; [by right|done].
  - split; [by right|done].
Qed.

(** Scroll and wheel events render nothing; they keep the queue coalesced
    and, when the mode listens to them, leave a frame requested. *)
Lemma step_input_spec cfg mode ev st :
  is_input ev = true ->
  coalesced mode st ->
  exists st',
    step cfg mode ev st = Some st' /\
    rendered st' = rendered st /\
    coalesced mode st' /\
    (ticking st = true -> ticking st' = true) /\
    (listened mode ev = true -> ticking st' = true).
Proof.
  intros Hin Hc.
  destruct ev as [y | d |]; [| |done]; destruct mode; simpl;
    eexists; (split; [reflexivity|]).
  - pose proof (schedule_coalesced RealOnly
                  (set_window (with_scrollY y (window st)) st) Hc) as [? ?].
    unfold onScroll_real. by rewrite schedule_rendered.
  - done.
  - pose proof (schedule_coalesced Combined
                  (set_window (with_scrollY y (window st)) st) Hc) as [? ?].
    unfold onScroll_combined. by rewrite schedule_rendered.
  - done.
  - pose proof (schedule_coalesced VirtualOnly
      (set_virtualScrollY
         (Qmax 0 (Qmin (maxOffset (virtualScroll cfg))
            (virtualScrollY st + d * sensitivity (virtualScroll cfg)))) st)
      Hc) as [? ?].
    unfold onWheel_virtual. by rewrite schedule_rendered.
  - unfold onWheel_combined.
    destruct (wheel_policy cfg d st) as [v b]. simpl.
    pose proof (schedule_coalesced Combined (set_virtualScrollY v st) Hc)
      as [? ?].
    by rewrite schedule_rendered.
Qed.

Lemma step_coalesced cfg mode ev st st' :
  coalesced mode st -> step cfg mode ev st = Some st' -> coalesced mode st'.
Proof.
  intros Hc Hs. destruct (is_input ev) eqn:Hin.
  - destruct (step_input_spec cfg mode ev st Hin Hc) as (st1 & Hs1 & _ & ? & _).
    congruence.
  - destruct ev; try done. simpl in Hs.
    destruct Hc as [[Ht Hq] | [Ht Hq]].
    + rewrite frame_idle in Hs by done. injection Hs as <-. by left.
    + destruct (frame_pending cfg _ st Hq) as (st1 & Hs1 & _ & _ & ? & ? & _).
      left. split; congruence.
Qed.

Lemma session_coalesced cfg mode w dom evs st :
  session cfg mode w dom evs = Some st -> coalesced mode st.
Proof.
  unfold session.
  destruct (setup_spec cfg mode w dom) as (st0 & -> & _ & _ & Ht & Hq & _).
  simpl. apply (run_invariant cfg mode (fun _ => True)).
  - intros ev s s' _. apply step_coalesced.
  - by apply Forall_true.
  - by left.
Qed.

Lemma session_total cfg mode w dom evs :
  exists st, session cfg mode w dom evs = Some st.
Proof.
  unfold session.
  destruct (setup_spec cfg mode w dom) as (st0 & -> & _). simpl.
  apply run_total.
Qed.

Lemma run_inputs_spec cfg mode evs st :
  forallb is_input evs = true ->
  coalesced mode st ->
  exists st',
    run cfg mode evs st = Some st' /\
    rendered st' = rendered st /\
    coalesced mode st' /\
    (ticking st = true \/ existsb (listened mode) evs = true ->
     ticking st' = true).
Proof.
  revert st. induction evs as [|ev rest IH]; intros st Hin Hc; simpl in *.
  - exists st. repeat split; try done. by intros [?|?].
  - apply andb_true_iff in Hin as [Hev Hrest].
    destruct (step_input_spec cfg mode ev st Hev Hc)
      as (st1 & -> & Hr1 & Hc1 & Ht1 & Hl1).
    simpl. destruct (IH st1 Hrest Hc1) as (st' & -> & Hr & Hc' & Ht').
    exists st'. repeat split; [congruence|done|].
    intros [Ht | Hl]; apply Ht'.
    + left. by apply Ht1.
    + apply orb_true_iff in Hl as [Hl | Hl]; [left; by apply Hl1 | by right].
Qed.



Example ten_scrolls_render_once :
  rendered <$> session CONFIG RealOnly tall_page sparse_document
                 ([Scroll 5; Frame] ++ ten_scrolls ++ [Frame])
  = Some [100; 5; 0].
Proof. vm_compute. reflexivity. Qed.

Example combined_events_render_once :
  rendered <$> session CONFIG Combined tall_page sparse_document
                 [Scroll 990; Scroll 1000; Wheel 100; Wheel 50; Wheel (-30);
                  Frame; Frame]
  = Some [1000 + (0 + 100 * 1 + 50 * 1 + -30 * 1); 0].
Proof. vm_compute. reflexivity. Qed.

(** *** Bounds on the virtual offset *)

Lemma wheel_policy_range cfg d st :
  sane cfg ->
  in_range cfg (virtualScrollY st) ->
  in_range cfg (fst (wheel_policy cfg d st)).
Proof.
  unfold sane, in_range. intros [Hs Hm] [Hv0 Hv1].
  assert (Hpos : 0 < d -> 0 <= d * sensitivity (virtualScroll cfg))
    by (intros; apply Qmult_le_0_compat; lra).
  assert (Hneg : d < 0 -> d * sensitivity (virtualScroll cfg) <= 0).
  { intros Hd.
    assert (0 <= (- d) * sensitivity (virtualScroll cfg))
      by (apply Qmult_le_0_compat; lra).
    lra. }
  unfold wheel_policy.
  set (x := d * sensitivity (virtualScroll cfg)) in *. clearbody x.
  q_branches; q_clamps; lra.
Qed.

Lemma onWheel_virtual_range cfg d st :
  sane cfg -> in_range cfg (virtualScrollY (onWheel_virtual cfg d st)).
Proof.
  intros [_ Hm]. unfold onWheel_virtual.
  rewrite schedule_virtualScrollY. simpl. by apply Qclamp_bounds.
Qed.

Lemma frame_virtualScrollY_range cfg cb st :
  sane cfg ->
  in_range cfg (virtualScrollY st) ->
  in_range cfg (frame_virtualScrollY cb st).
Proof.
  intros [_ Hm] Hv. destruct cb; simpl; try done.
  unfold getEffectiveScroll.
  destruct (atBottom (window st)); simpl; [done|].
  unfold in_range. lra.
Qed.

Lemma step_range cfg mode ev st st' :
  sane cfg ->
  in_range cfg (virtualScrollY st) ->
  step cfg mode ev st = Some st' ->
  in_range cfg (virtualScrollY st').
Proof.
  intros Hsane Hv. destruct ev as [y | d |]; simpl.
  - intros [= <-]. destruct mode; simpl; try done;
      unfold onScroll_real, onScroll_combined;
      by rewrite schedule_virtualScrollY.
  - intros [= <-]. destruct mode; simpl; try done.
    + by apply onWheel_virtual_range.
    + rewrite onWheel_combined_virtualScrollY. by apply wheel_policy_range.
  - unfold frame.
    apply (run_callbacks_invariant cfg
             (fun s => in_range cfg (virtualScrollY s))); [|done].
    intros cb s s' Hs Hrun.
    destruct (run_callback_spec cfg cb s) as (s1 & Hs1 & _ & Hv1 & _).
    assert (s1 = s') as <- by congruence.
    rewrite Hv1. by apply frame_virtualScrollY_range.
Qed.

Lemma step_bounded cfg mode ev st st' :
  sane cfg ->
  bounded cfg mode st -> step cfg mode ev st = Some st' ->
  bounded cfg mode st'.
Proof.
  intros Hsane (Hv & Hc & Hr) Hs.
  split; [by apply (step_range cfg mode ev st)|].
  split; [by apply (step_coalesced cfg mode ev st)|].
  intros ->. specialize (Hr eq_refl).
  destruct (is_input ev) eqn:Hin.
  - destruct (step_input_spec cfg VirtualOnly ev st Hin Hc)
      as (s1 & Hs1 & Hr1 & _).
    assert (s1 = st') as <- by congruence. by rewrite Hr1.
  - destruct ev; try done. simpl in Hs.
    destruct Hc as [[Ht Hq] | [Ht Hq]].
    + rewrite frame_idle in Hs by done. by injection Hs as <-.
    + destruct (frame_pending cfg _ st Hq) as (s1 & Hs1 & _ & _ & _ & _ & Hr1).
      assert (s1 = st') as <- by congruence.
      rewrite Hr1. by apply Forall_cons.
Qed.

(** C4: under the configuration contract, in every mode and after every
    sequence of events (wheel deltas of any sign and size, mixed with
    scroll events and frames), virtualOffset is within [0, maxOffset];
    in VirtualOnly mode every position handed to the renderer is within
    [0, maxOffset] as well. *)
Theorem virtualScrollY_stays_in_range cfg mode w dom evs :
  0 <= sensitivity (virtualScroll cfg) ->
  0 <= maxOffset (virtualScroll cfg) ->
  exists st,
    session cfg mode w dom evs = Some st /\
    0 <= virtualScrollY st <= maxOffset (virtualScroll cfg) /\
    (mode = VirtualOnly ->
     Forall (fun p => 0 <= p <= maxOffset (virtualScroll cfg)) (rendered st)).
Proof.
  intros Hs Hm. assert (Hsane : sane cfg) by done.
  destruct (session_total cfg mode w dom evs) as [st Hst].
  exists st. split; [done|].
  assert (Hb : bounded cfg mode st); [|by destruct Hb as (? & _ & ?)].
  unfold session in Hst.
  destruct (setup_spec cfg mode w dom)
    as (st0 & Hs0 & _ & Hv0 & Ht0 & Hq0 & Hr0).
  rewrite Hs0 in Hst. simpl in Hst.
  apply (run_invariant cfg mode (fun _ => True) (bounded cfg mode)
           (fun ev s s' _ => step_bounded cfg mode ev s s' Hsane)
           evs st0 st); [by apply Forall_true| |done].
  split; [|split].
  - rewrite Hv0. unfold in_range. lra.
  - by left.
  - intros ->. rewrite Hr0. apply Forall_cons. split; [|done].
    unfold in_range. lra.
Qed.

Lemma virtualScrollY_stays_in_range_witness :
  exists st,
    session CONFIG VirtualOnly tall_page sparse_document wild_wheels
      = Some st /\
    0 <= virtualScrollY st <= maxOffset (virtualScroll CONFIG) /\
    (VirtualOnly = VirtualOnly ->
     Forall (fun p => 0 <= p <= maxOffset (virtualScroll CONFIG))
       (rendered st)).
Proof.
  apply (virtualScrollY_stays_in_range CONFIG VirtualOnly tall_page
           sparse_document wild_wheels); vm_compute; discriminate.
Defined.

Example wild_wheels_rendered :
  rendered <$> session CONFIG VirtualOnly tall_page sparse_document wild_wheels
  = Some [0 + (7 # 3) * 1; 1950; 2000; 1500; 0].
Proof. vm_compute. reflexivity. Qed.

(** *** Non-negative positions *)

Lemma frame_position_nonneg cfg cb st :
  in_range cfg (virtualScrollY st) ->
  0 <= scrollY (window st) ->
  0 <= frame_position cb st.
Proof.
  unfold in_range. intros [Hv _] Hy. destruct cb; simpl; try done.
  unfold getEffectiveScroll.
  destruct (atBottom (window st)); simpl; lra.
Qed.

Lemma run_callback_nonneg cfg cb st st' :
  sane cfg ->
  nonneg cfg st -> run_callback cfg cb st = Some st' -> nonneg cfg st'.
Proof.
  intros Hsane (Hv & Hy & Hr) Hrun.
  destruct (run_callback_spec cfg cb st) as (s1 & Hs1 & Hw1 & Hv1 & _ & _ & Hr1).
  assert (s1 = st') as <- by congruence.
  split; [|split].
  - rewrite Hv1. by apply frame_virtualScrollY_range.
  - by rewrite Hw1.
  - rewrite Hr1. apply Forall_cons. split; [|done].
    by apply (frame_position_nonneg cfg).
Qed.

Lemma step_nonneg cfg mode ev st st' :
  sane cfg ->
  scroll_nonneg ev = true ->
  nonneg cfg st -> step cfg mode ev st = Some st' -> nonneg cfg st'.
Proof.
  intros Hsane Hev (Hv & Hy & Hr) Hs.
  destruct ev as [y | d |]; simpl in *.
  - apply Qle_bool_iff in Hev. injection Hs as <-.
    destruct mode; simpl; unfold onScroll_real, onScroll_combined, nonneg;
      rewrite ?schedule_virtualScrollY, ?schedule_window, ?schedule_rendered;
      simpl; done.
  - pose proof (step_range cfg mode (Wheel d) st st' Hsane Hv Hs) as Hv'.
    injection Hs as <-.
    split; [done|].
    destruct mode; simpl; try done.
    + unfold onWheel_virtual.
      by rewrite schedule_window, schedule_rendered.
    + rewrite onWheel_combined_window. split; [done|].
      unfold onWheel_combined. destruct (wheel_policy cfg d st) as [v b].
      simpl. by rewrite schedule_rendered.
  - unfold frame in Hs.
    apply (run_callbacks_invariant cfg (nonneg cfg)
             (fun cb s s' => run_callback_nonneg cfg cb s s' Hsane)
             (rafQueue st) (set_rafQueue [] st) st'); [|done].
    by split; [|split].
Qed.

(** C5: under the configuration contract, in every mode, with a real
    scroll offset that is never negative, every position handed to the
    renderer (the initial render included) is at least 0. *)
Theorem rendered_positions_nonnegative cfg mode w dom evs :
  0 <= sensitivity (virtualScroll cfg) ->
  0 <= maxOffset (virtualScroll cfg) ->
  0 <= scrollY w ->
  forallb scroll_nonneg evs = true ->
  exists st,
    session cfg mode w dom evs = Some st /\
    Forall (Qle 0) (rendered st).
Proof.
  intros Hs Hm Hy Hevs. assert (Hsane : sane cfg) by done.
  destruct (session_total cfg mode w dom evs) as [st Hst].
  exists st. split; [done|].
  assert (Hn : nonneg cfg st); [|by destruct Hn as (_ & _ & ?)].
  unfold session in Hst.
  destruct (setup_spec cfg mode w dom)
    as (st0 & Hs0 & Hw0 & Hv0 & _ & _ & Hr0).
  rewrite Hs0 in Hst. simpl in Hst.
  apply (run_invariant cfg mode (fun ev => scroll_nonneg ev = true)
           (nonneg cfg)
           (fun ev s s' => step_nonneg cfg mode ev s s' Hsane)
           evs st0 st); [| |done].
  - apply Forall_forall. intros ev Hev.
    rewrite forallb_forall in Hevs. apply Hevs. by apply list_elem_of_In.
  - split; [|split].
    + rewrite Hv0. unfold in_range. lra.
    + by rewrite Hw0.
    + rewrite Hr0. apply Forall_cons. split; [|done].
      destruct mode; lra.
Qed.

Lemma rendered_positions_nonnegative_witness :
  exists st,
    session CONFIG Combined tall_page sparse_document scenario_events
      = Some st /\
    Forall (Qle 0) (rendered st).
Proof.
  apply (rendered_positions_nonnegative CONFIG Combined tall_page
           sparse_document scenario_events);
    solve [reflexivity | vm_compute; discriminate].
Defined.

Example scenario_rendered :
  rendered <$> session CONFIG Combined tall_page sparse_document
                 scenario_events
  = Some [400; 1000 + 0; 1000 + (0 + 100 * 1 + -30 * 1);
          1000 + (0 + 100 * 1); 1000 + 0; 500; 0].
Proof. vm_compute. reflexivity. Qed.

(** *** Leaving the bottom of the page *)

Lemma same_page_maxRealScroll w st :
  same_page w st -> maxRealScroll (window st) = maxRealScroll w.
Proof. unfold maxRealScroll. by intros [-> ->]. Qed.

Lemma step_same_page cfg mode w ev st st' :
  same_page w st -> step cfg mode ev st = Some st' -> same_page w st'.
Proof.
  intros Hp. destruct ev as [y | d |]; simpl.
  - intros [= <-]. destruct mode; simpl; try done;
      unfold onScroll_real, onScroll_combined, same_page;
      by rewrite schedule_window.
  - intros [= <-]. destruct mode; simpl; try done.
    + unfold onWheel_virtual, same_page. by rewrite schedule_window.
    + unfold same_page. by rewrite onWheel_combined_window.
  - unfold frame.
    apply (run_callbacks_invariant cfg (same_page w)); [|done].
    intros cb s s' Hs Hrun.
    destruct (run_callback_spec cfg cb s) as (s1 & Hs1 & Hw1 & _).
    assert (s1 = s') as <- by congruence.
    unfold same_page. by rewrite Hw1.
Qed.

Lemma run_wheels_window cfg ds st st' :
  run cfg Combined (map Wheel ds) st = Some st' -> window st' = window st.
Proof.
  revert st. induction ds as [|d rest IH]; intros st; simpl.
  - by intros [= <-].
  - intros Hrun. rewrite (IH _ Hrun). apply onWheel_combined_window.
Qed.

Lemma wheels_are_inputs ds : forallb is_input (map Wheel ds) = true.
Proof. induction ds as [|d rest IH]; simpl; done. Qed.

(** C3, as stated, fails: after the real scroll offset has moved to 400,
    more than 5 units above the bottom at 1000, a scroll back to the bottom
    before the frame leaves the virtual offset at 100 at the next update;
    and a scroll away from the bottom by 3 units leaves it at 100 too. *)
Lemma scroll_away_and_back_keeps_virtual_offset :
  Qlt_bool 400 (maxRealScroll tall_page - 5) = true /\
  (virtualScrollY
     <$> session CONFIG Combined tall_page sparse_document
           [Scroll 1000; Frame; Wheel 100; Frame;
            Scroll 400; Scroll 1000; Frame])
  = Some (0 + 100 * 1) /\
  (virtualScrollY
     <$> session CONFIG Combined tall_page sparse_document
           [Scroll 1000; Frame; Wheel 100; Frame; Scroll 997; Frame])
  = Some (0 + 100 * 1) /\
  ~ (0 + 100 * 1 == 0).
Proof. vm_compute. repeat split; discriminate. Qed.

(** C3, amended: Combined mode, after any session so far: when the last
    real scroll offset reported before an animation frame is below the
    maximum scrollable offset by more than the 5-unit tolerance, then,
    whatever wheel events arrive before it, that frame's update leaves
    virtualOffset at 0 and renders the real scroll offset alone. *)
Theorem scroll_away_resets_virtual_offset cfg w dom pre y ds :
  y < maxRealScroll w - 5 ->
  exists st,
    session cfg Combined w dom (pre ++ Scroll y :: map Wheel ds ++ [Frame])
      = Some st /\
    virtualScrollY st = 0 /\
    head (rendered st) = Some y.
Proof.
  intros Hy.
  destruct (session_total cfg Combined w dom pre) as [st1 Hs1].
  pose proof (session_coalesced _ _ _ _ _ _ Hs1) as Hc1.
  assert (Hp1 : same_page w st1).
  { unfold session in Hs1.
    destruct (setup_spec cfg Combined w dom) as (st0 & Hs0 & Hw0 & _).
    rewrite Hs0 in Hs1. simpl in Hs1.
    apply (run_invariant cfg Combined (fun _ => True) (same_page w)
             (fun ev s s' _ => step_same_page cfg Combined w ev s s')
             pre st0 st1); [by apply Forall_true| |done].
    unfold same_page. by rewrite Hw0. }
  destruct (step_input_spec cfg Combined (Scroll y) st1 eq_refl Hc1)
    as (st2 & Hs2 & _ & Hc2 & _ & Ht2).
  assert (Hw2 : window st2 = with_scrollY y (window st1)).
  { simpl in Hs2. injection Hs2 as <-.
    unfold onScroll_combined. by rewrite schedule_window. }
  destruct (run_inputs_spec cfg Combined (map Wheel ds) st2
              (wheels_are_inputs ds) Hc2) as (st3 & Hs3 & _ & Hc3 & Ht3).
  pose proof (run_wheels_window _ _ _ _ Hs3) as Hw3.
  assert (Hq3 : rafQueue st3 = [CombinedFrame]).
  { destruct Hc3 as [[Ht _] | [_ Hq]]; [|done].
    rewrite Ht3 in Ht; [done|]. left. by apply Ht2. }
  destruct (frame_pending cfg _ st3 Hq3)
    as (st4 & Hs4 & _ & Hv4 & _ & _ & Hr4).
  assert (Hnb : atBottom (window st3) = false).
  { unfold atBottom. apply Qle_bool_false.
    rewrite Hw3, Hw2. unfold maxRealScroll. simpl.
    destruct Hp1 as [-> ->]. exact Hy. }
  exists st4. split; [|split].
  - unfold session in *.
    destruct (setup cfg Combined w dom) as [st0|]; [|done].
    cbn [mbind option_bind] in *.
    rewrite run_app, Hs1. cbn [mbind option_bind].
    rewrite run_cons, Hs2. cbn [mbind option_bind].
    rewrite run_app, Hs3. cbn [mbind option_bind].
    rewrite run_cons.
    change (step cfg Combined Frame st3) with (frame cfg st3).
    by rewrite Hs4.
  - rewrite Hv4. simpl. unfold getEffectiveScroll. by rewrite Hnb.
  - rewrite Hr4. simpl. unfold getEffectiveScroll. rewrite Hnb. simpl.
    by rewrite Hw3, Hw2.
Qed.

Lemma scroll_away_resets_virtual_offset_witness :
  exists st,
    session CONFIG Combined tall_page sparse_document
      ([Scroll 1000; Frame; Wheel 100; Frame]
       ++ Scroll 994 :: map Wheel [-30; 10] ++ [Frame])
      = Some st /\
    virtualScrollY st = 0 /\
    head (rendered st) = Some 994.
Proof.
  apply (scroll_away_resets_virtual_offset CONFIG tall_page sparse_document
           [Scroll 1000; Frame; Wheel 100; Frame] 994 [-30; 10]).
  reflexivity.
Defined.

(** Inside the tolerance the virtual offset is kept: three units above the
    bottom still count as the bottom. *)
Example scroll_within_tolerance_keeps_virtual_offset :
  (fun st => (virtualScrollY st, head (rendered st)))
    <$> session CONFIG Combined tall_page sparse_document
          [Scroll 1000; Frame; Wheel 100; Frame; Scroll 997; Frame]
  = Some (0 + 100 * 1, Some (997 + (0 + 100 * 1))).
Proof. vm_compute. reflexivity. Qed.

(** * Further properties of the handlers and the renderer *)

(** ** RealOnly mode *)

Lemma session_run cfg mode w dom evs st :
  session cfg mode w dom evs = Some st ->
  exists st0,
    setup cfg mode w dom = Some st0 /\
    run cfg mode evs st0 = Some st /\
    window st0 = w /\
    virtualScrollY st0 = 0 /\
    ticking st0 = false /\
    rafQueue st0 = [] /\
    rendered st0 = [match mode with RealOnly => scrollY w | _ => 0 end].
Proof.
  unfold session.
  destruct (setup_spec cfg mode w dom) as (st0 & Hs0 & ? & ? & ? & ? & ?).
  rewrite Hs0. simpl. intros Hrun. exists st0. eauto 10.
Qed.

Lemma frame_cases cfg mode st st' :
  coalesced mode st ->
  frame cfg st = Some st' ->
  (ticking st = false /\ st' = st) \/
  (ticking st = true /\
   window st' = window st /\
   virtualScrollY st' = frame_virtualScrollY (mode_callback mode) st /\
   ticking st' = false /\
   rafQueue st' = [] /\
   rendered st' = frame_position (mode_callback mode) st :: rendered st).
Proof.
  intros [[Ht Hq] | [Ht Hq]] Hf.
  - left. rewrite frame_idle in Hf by done. split; congruence.
  - right. destruct (frame_pending cfg _ st Hq) as (s1 & Hs1 & ?).
    assert (s1 = st') as <- by congruence. done.
Qed.

(** X1: in RealOnly mode the virtual offset stays 0, wheel events change
    nothing, and every position handed to the renderer is a real scroll
    offset: the one at load time or one a scroll event reported. *)
Theorem real_only_renders_reported_offsets cfg w dom evs :
  exists st,
    session cfg RealOnly w dom evs = Some st /\
    virtualScrollY st = 0 /\
    Forall (reported_offset w evs) (rendered st) /\
    (forall d s, step cfg RealOnly (Wheel d) s = Some s).
Proof.
  destruct (session_total cfg RealOnly w dom evs) as [st Hst].
  exists st. split; [done|].
  destruct (session_run _ _ _ _ _ _ Hst)
    as (st0 & _ & Hrun & Hw0 & Hv0 & Ht0 & Hq0 & Hr0).
  set (P := fun s : State =>
              virtualScrollY s = 0 /\
              coalesced RealOnly s /\
              reported_offset w evs (scrollY (window s)) /\
              Forall (reported_offset w evs) (rendered s)).
  assert (HP : P st).
  { apply (run_invariant cfg RealOnly (fun ev => ev ∈ evs) P) with evs st0;
      [|by apply Forall_forall| |done].
    - intros ev s s' Hev (Hv & Hc & Hy & Hr) Hs.
      destruct ev as [y | d |]; simpl in Hs.
      + injection Hs as <-. unfold onScroll_real, P.
        rewrite schedule_virtualScrollY, schedule_window, schedule_rendered.
        simpl. repeat split; try done.
        * by apply (schedule_coalesced RealOnly).
        * by right.
      + by injection Hs as <-.
      + destruct (frame_cases cfg RealOnly s s' Hc Hs)
          as [[_ ->] | (_ & Hw' & Hv' & Ht' & Hq' & Hr')]; [done|].
        unfold P. rewrite Hw', Hv', Hr'. simpl.
        repeat split; try done; [by left | by apply Forall_cons].
    - unfold P. rewrite Hv0, Hw0, Hr0. repeat split; try done.
      + by left.
      + by left.
      + apply Forall_cons. split; [by left | done]. }
  destruct HP as (? & _ & _ & ?). done.
Qed.

(** ** Rendering twice *)

Lemma layer_id_dec (id : string) :
  (exists i, i ∈ seq 1 5 /\ id = layer_id i) \/
  (forall i, i ∈ seq 1 5 -> id <> layer_id i).
Proof.
  destruct (decide (id ∈ layer_id <$> seq 1 5)) as [Hin | Hout].
  - left. apply list_elem_of_fmap in Hin as (i & -> & Hi). eauto.
  - right. intros i Hi ->. apply Hout. apply list_elem_of_fmap. eauto.
Qed.

(** X2: the last render wins: rendering position [p] and then position [q]
    leaves the document exactly as rendering [q] alone does; in particular
    rendering the same position twice changes nothing the second time. *)
Theorem render_last_wins cfg p q (dom : DOM) :
  updateStarPositions_dom cfg p dom ≫= updateStarPositions_dom cfg q
  = updateStarPositions_dom cfg q dom.
Proof.
  destruct (updateStarPositions_dom_total cfg p dom) as [d1 H1].
  destruct (updateStarPositions_dom_total cfg q d1) as [d2 H2].
  destruct (updateStarPositions_dom_total cfg q dom) as [d3 H3].
  rewrite H1. simpl. rewrite H2, H3. f_equal.
  apply map_eq. intros id.
  destruct (layer_id_dec id) as [(i & Hi & ->) | Hid].
  - rewrite (update_layers_layer _ _ _ _ _ _ H2 (NoDup_seq _ _) Hi).
    rewrite (update_layers_layer _ _ _ _ _ _ H1 (NoDup_seq _ _) Hi).
    rewrite (update_layers_layer _ _ _ _ _ _ H3 (NoDup_seq _ _) Hi).
    by destruct (dom !! layer_id i).
  - rewrite (update_layers_other _ _ _ _ _ _ H2 Hid).
    rewrite (update_layers_other _ _ _ _ _ _ H1 Hid).
    by rewrite (update_layers_other _ _ _ _ _ _ H3 Hid).
Qed.

(** ** When the wheel is captured *)

(** X3: the Combined wheel handler calls preventDefault exactly when the page
    is scrollable, the delta is negative, the virtual offset is positive
    and it stays positive after the delta is applied.  The real scroll
    offset plays no part in it. *)
Theorem wheel_prevented_iff cfg d st :
  snd (onWheel_combined cfg d st) = true
  <-> (5 < maxRealScroll (window st) /\
       d < 0 /\
       0 < virtualScrollY st /\
       0 < virtualScrollY st + d * sensitivity (virtualScroll cfg)).
Proof.
  rewrite onWheel_combined_prevented. unfold wheel_policy.
  set (x := d * sensitivity (virtualScroll cfg)). clearbody x.
  split.
  - q_branches; try done;
      intros Hp; apply Qlt_bool_iff in Hp;
      (repeat split; try done); revert Hp; q_clamps; lra.
  - intros (Hs & Hd & Hv & Hx).
    q_branches; try lra;
      apply Qlt_bool_iff; q_clamps; lra.
Qed.

(** ** Bounds on the effective position *)

Lemma session_bounded cfg mode w dom evs st :
  sane cfg ->
  session cfg mode w dom evs = Some st ->
  bounded cfg mode st.
Proof.
  intros Hsane Hst.
  destruct (session_run _ _ _ _ _ _ Hst)
    as (st0 & _ & Hrun & _ & Hv0 & Ht0 & Hq0 & Hr0).
  apply (run_invariant cfg mode (fun _ => True) (bounded cfg mode)
           (fun ev s s' _ => step_bounded cfg mode ev s s' Hsane)
           evs st0 st); [by apply Forall_true| |done].
  destruct Hsane as [_ Hm]. split; [|split].
  - rewrite Hv0. unfold in_range. lra.
  - by left.
  - intros ->. rewrite Hr0. apply Forall_cons. split; [|done].
    unfold in_range. lra.
Qed.

(** X4: in Combined mode the effective position never falls below the real
    scroll offset and never exceeds it by more than maxOffset. *)
Theorem combined_position_bounds cfg w dom evs :
  0 <= sensitivity (virtualScroll cfg) ->
  0 <= maxOffset (virtualScroll cfg) ->
  exists st,
    session cfg Combined w dom evs = Some st /\
    scrollY (window st) <= fst (getEffectiveScroll st)
      <= scrollY (window st) + maxOffset (virtualScroll cfg).
Proof.
  intros Hs Hm.
  destruct (session_total cfg Combined w dom evs) as [st Hst].
  exists st. split; [done|].
  destruct (session_bounded cfg Combined w dom evs st) as ([Hv0 Hv1] & _);
    [done..|].
  unfold getEffectiveScroll.
  destruct (atBottom (window st)); simpl; lra.
Qed.

Lemma combined_position_bounds_witness :
  exists st,
    session CONFIG Combined tall_page sparse_document scenario_events
      = Some st /\
    scrollY (window st) <= fst (getEffectiveScroll st)
      <= scrollY (window st) + maxOffset (virtualScroll CONFIG).
Proof.
  apply (combined_position_bounds CONFIG tall_page sparse_document
           scenario_events); vm_compute; discriminate.
Defined.

(** ** Wheeling forth and back *)

(** For whole numbers up to 2^53 the arithmetic of the code is exact: the
    sums and products below are the doubles the code computes. *)
Lemma whole_step (a b c : Z) v d s :
  v == inject_Z a -> d == inject_Z b -> s == inject_Z c ->
  v + d * s == inject_Z (a + b * c) /\
  - d * s == - (d * s).
Proof.
  intros -> -> ->. rewrite inject_Z_plus, inject_Z_mult. split; ring.
Qed.

Lemma inject_Z_nonneg (z : Z) : (0 <= z)%Z -> 0 <= inject_Z z.
Proof. intros Hz. change 0 with (inject_Z 0). by rewrite <- Zle_Qle. Qed.

Lemma inject_Z_pos (z : Z) : (0 < z)%Z -> 0 < inject_Z z.
Proof. intros Hz. change 0 with (inject_Z 0). by rewrite <- Zlt_Qlt. Qed.

(** X5: the wheel handler of the virtual mode, for a whole-numbered
    virtual offset, delta and sensitivity (all results up to 2^53, where
    doubles are exact): a delta followed by the opposite delta restores
    the virtual offset, provided the first step stays within
    [0, maxOffset], i.e. is not clamped. *)
Theorem virtual_wheel_round_trip cfg d st (a b c : Z) :
  virtualScrollY st == inject_Z a ->
  d == inject_Z b ->
  sensitivity (virtualScroll cfg) == inject_Z c ->
  (0 <= a <= 2 ^ 53)%Z ->
  (Z.abs (b * c) <= 2 ^ 53)%Z ->
  (0 <= a + b * c <= 2 ^ 53)%Z ->
  inject_Z a <= maxOffset (virtualScroll cfg) ->
  inject_Z (a + b * c) <= maxOffset (virtualScroll cfg) ->
  virtualScrollY (onWheel_virtual cfg (- d) (onWheel_virtual cfg d st))
    == virtualScrollY st.
Proof.
  intros Hv Hd Hs [Ha0 _] _ [Hx0 _] Ha1 Hx1.
  destruct (whole_step a b c _ _ _ Hv Hd Hs) as [Hsum Hopp].
  assert (0 <= inject_Z a) by (by apply inject_Z_nonneg).
  assert (0 <= inject_Z (a + b * c)) by (by apply inject_Z_nonneg).
  unfold onWheel_virtual.
  repeat (rewrite schedule_virtualScrollY; simpl).
  rewrite Hopp.
  set (x := d * sensitivity (virtualScroll cfg)) in *. clearbody x.
  q_clamps; lra.
Qed.

Lemma virtual_wheel_round_trip_witness :
  virtualScrollY
    (onWheel_virtual CONFIG (- (250)) (onWheel_virtual CONFIG 250
       (page_state 0 600 1700)))
    == virtualScrollY (page_state 0 600 1700).
Proof.
  apply (virtual_wheel_round_trip CONFIG 250 (page_state 0 600 1700)
           1700 250 1); try reflexivity; try lia;
    vm_compute; discriminate.
Defined.

(** Once the clamp cuts a step short the way back does not return to the
    start: from 1700, +500 stops at 2000 and -500 ends at 1500. *)
Example virtual_wheel_clamped_no_round_trip :
  virtualScrollY
    (onWheel_virtual CONFIG (-500) (onWheel_virtual CONFIG 500
       (page_state 0 600 1700)))
  = 2000 + -500 * 1.
Proof. reflexivity. Qed.

(** Outside the whole numbers the code's sums are rounded and the way
    back can miss the start: in doubles (0.1 + 0.2) - 0.2 is not 0.1. *)
#[warnings="-inexact-float"]
Example rounded_sum_no_round_trip :
  PrimFloat.eqb
    (PrimFloat.add (PrimFloat.add 0.1 (PrimFloat.mul 0.2 1))
                   (PrimFloat.mul (PrimFloat.opp 0.2) 1))
    0.1 = false.
Proof. reflexivity. Qed.

(** X6: in Combined mode at the bottom of a scrollable page, for a
    whole-numbered virtual offset, delta and sensitivity (all results up
    to 2^53, where doubles are exact): a forward delta that is not
    clamped, followed by the opposite delta, restores the virtual
    offset. *)
Theorem combined_wheel_round_trip cfg d st (a b c : Z) :
  virtualScrollY st == inject_Z a ->
  d == inject_Z b ->
  sensitivity (virtualScroll cfg) == inject_Z c ->
  (0 <= a <= 2 ^ 53)%Z ->
  (0 < b)%Z ->
  (0 <= c)%Z ->
  (b * c <= 2 ^ 53)%Z ->
  (a + b * c <= 2 ^ 53)%Z ->
  inject_Z (a + b * c) <= maxOffset (virtualScroll cfg) ->
  5 < maxRealScroll (window st) ->
  maxRealScroll (window st) - 5 <= scrollY (window st) ->
  virtualScrollY
    (fst (onWheel_combined cfg (- d) (fst (onWheel_combined cfg d st))))
    == virtualScrollY st.
Proof.
  intros Hva Hdb Hsc [Ha0 _] Hb Hc _ _ Hx Hscr Hbot.
  destruct (whole_step a b c _ _ _ Hva Hdb Hsc) as [Hsum Hopp].
  assert (Hv : 0 <= virtualScrollY st)
    by (rewrite Hva; by apply inject_Z_nonneg).
  assert (Hd : 0 < d) by (rewrite Hdb; by apply inject_Z_pos).
  assert (Hs : 0 <= sensitivity (virtualScroll cfg))
    by (rewrite Hsc; by apply inject_Z_nonneg).
  rewrite <- Hsum in Hx.
  rewrite onWheel_combined_virtualScrollY.
  assert (H1 : fst (wheel_policy cfg d st)
               == virtualScrollY st + d * sensitivity (virtualScroll cfg)).
  { unfold wheel_policy, atBottom. q_branches; q_clamps; lra. }
  assert (Hpos : 0 <= d * sensitivity (virtualScroll cfg))
    by (apply Qmult_le_0_compat; lra).
  unfold wheel_policy at 1.
  rewrite onWheel_combined_window, onWheel_combined_virtualScrollY.
  set (v1 := fst (wheel_policy cfg d st)) in *. clearbody v1.
  set (y := - d * sensitivity (virtualScroll cfg)) in *. clearbody y.
  set (x := d * sensitivity (virtualScroll cfg)) in *. clearbody x.
  unfold atBottom. q_branches; q_clamps; lra.
Qed.

Lemma combined_wheel_round_trip_witness :
  virtualScrollY
    (fst (onWheel_combined CONFIG (- (250))
       (fst (onWheel_combined CONFIG 250 (at_bottom_state 1700)))))
    == virtualScrollY (at_bottom_state 1700).
Proof.
  apply (combined_wheel_round_trip CONFIG 250 (at_bottom_state 1700)
           1700 250 1); try reflexivity; try lia;
    vm_compute; discriminate.
Defined.

(** ** The direction of a wheel step *)

(** X7: under the configuration contract and with the virtual offset within
    [0, maxOffset], neither wheel handler moves the virtual offset against
    the sign of the delta. *)
Theorem wheel_keeps_direction cfg d st :
  0 <= sensitivity (virtualScroll cfg) ->
  0 <= virtualScrollY st <= maxOffset (virtualScroll cfg) ->
  (0 <= d ->
   virtualScrollY st <= virtualScrollY (onWheel_virtual cfg d st) /\
   virtualScrollY st <= virtualScrollY (fst (onWheel_combined cfg d st))) /\
  (d <= 0 ->
   virtualScrollY (onWheel_virtual cfg d st) <= virtualScrollY st /\
   virtualScrollY (fst (onWheel_combined cfg d st)) <= virtualScrollY st).
Proof.
  intros Hs Hv.
  rewrite onWheel_combined_virtualScrollY.
  unfold onWheel_virtual. rewrite schedule_virtualScrollY. simpl.
  assert (Hpos : 0 <= d -> 0 <= d * sensitivity (virtualScroll cfg))
    by (intros; apply Qmult_le_0_compat; lra).
  assert (Hneg : d <= 0 -> d * sensitivity (virtualScroll cfg) <= 0).
  { intros Hd.
    assert (0 <= (- d) * sensitivity (virtualScroll cfg))
      by (apply Qmult_le_0_compat; lra).
    lra. }
  unfold wheel_policy.
  set (x := d * sensitivity (virtualScroll cfg)) in *. clearbody x.
  split; intros Hd; (split; [q_clamps; lra | q_branches; q_clamps; lra]).
Qed.

Lemma wheel_keeps_direction_witness :
  (0 <= -40 ->
   virtualScrollY (at_bottom_state 100)
     <= virtualScrollY (onWheel_virtual CONFIG (-40) (at_bottom_state 100)) /\
   virtualScrollY (at_bottom_state 100)
     <= virtualScrollY (fst (onWheel_combined CONFIG (-40) (at_bottom_state 100)))) /\
  (-40 <= 0 ->
   virtualScrollY (onWheel_virtual CONFIG (-40) (at_bottom_state 100))
     <= virtualScrollY (at_bottom_state 100) /\
   virtualScrollY (fst (onWheel_combined CONFIG (-40) (at_bottom_state 100)))
     <= virtualScrollY (at_bottom_state 100)).
Proof.
  apply (wheel_keeps_direction CONFIG (-40) (at_bottom_state 100));
    [|split]; vm_compute; discriminate.
Defined.

(** ** How often the renderer runs *)

Lemma step_unlistened cfg mode ev st st' :
  is_input ev = true ->
  listened mode ev = false ->
  step cfg mode ev st = Some st' ->
  ticking st' = ticking st.
Proof.
  intros Hin Hl Hs.
  destruct ev as [y | d |]; [| |done]; destruct mode; try done;
    simpl in Hs; by injection Hs as <-.
Qed.

Lemma run_render_count cfg mode evs st st' :
  coalesced mode st ->
  run cfg mode evs st = Some st' ->
  (length (rendered st') <= length (rendered st) + count_events is_frame evs
   /\ length (rendered st') + pending_renders st'
      <= length (rendered st) + pending_renders st
         + count_events (listened mode) evs)%nat.
Proof.
  revert st. induction evs as [|ev rest IH]; intros st Hc; simpl.
  - intros [= <-]. unfold count_events. simpl. lia.
  - destruct (step cfg mode ev st) as [s1|] eqn:Hs; simpl; [|done].
    intros Hrun.
    pose proof (step_coalesced cfg mode ev st s1 Hc Hs) as Hc1.
    destruct (IH s1 Hc1 Hrun) as [IHf IHl].
    unfold count_events in *. simpl.
    destruct (is_input ev) eqn:Hin.
    + destruct (step_input_spec cfg mode ev st Hin Hc)
        as (s2 & Hs2 & Hr2 & _ & Ht2 & Hl2).
      assert (s2 = s1) as -> by congruence.
      rewrite Hr2 in *.
      assert (Hf : is_frame ev = false) by (by destruct ev).
      rewrite Hf. split; [lia|].
      destruct (listened mode ev) eqn:Hl; simpl.
      * unfold pending_renders in *.
        destruct (ticking s1), (ticking st); lia.
      * unfold pending_renders in *.
        rewrite (step_unlistened cfg mode ev st s1 Hin Hl Hs) in *. lia.
    + destruct ev; try done. simpl in Hs |- *.
      assert (Hl : listened mode Frame = false) by (by destruct mode).
      rewrite Hl.
      destruct (frame_cases cfg mode st s1 Hc Hs)
        as [[_ ->] | (Ht & _ & _ & Ht' & _ & Hr')]; [lia|].
      unfold pending_renders in *. rewrite Hr', Ht, Ht' in *.
      simpl in *. lia.
Qed.

(** X8: after the initial render the renderer runs at most once per animation
    frame, and never more often than the mode has handled events: the
    number of calls is at most 1 + the number of frames and at most
    1 + the number of events the mode listens to. *)
Theorem render_count_bounds cfg mode w dom evs :
  exists st,
    session cfg mode w dom evs = Some st /\
    (length (rendered st) <= 1 + count_events is_frame evs)%nat /\
    (length (rendered st) <= 1 + count_events (listened mode) evs)%nat.
Proof.
  destruct (session_total cfg mode w dom evs) as [st Hst].
  exists st. split; [done|].
  destruct (session_run _ _ _ _ _ _ Hst)
    as (st0 & _ & Hrun & _ & _ & Ht0 & Hq0 & Hr0).
  assert (Hc0 : coalesced mode st0) by (by left).
  destruct (run_render_count cfg mode evs st0 st Hc0 Hrun) as [Hf Hl].
  unfold pending_renders in *. rewrite Hr0, Ht0 in *. simpl in *.
  split; [lia|]. destruct (ticking st); lia.
Qed.

(** X9: a frame that follows a frame directly finds nothing to do: the state
    is left as it is and nothing is rendered. *)
Theorem idle_frame_changes_nothing cfg mode w dom pre :
  session cfg mode w dom (pre ++ [Frame; Frame])
  = session cfg mode w dom (pre ++ [Frame]).
Proof.
  destruct (session_total cfg mode w dom pre) as [st1 Hs1].
  pose proof (session_coalesced _ _ _ _ _ _ Hs1) as Hc1.
  unfold session in *.
  destruct (setup cfg mode w dom) as [st0|]; [|done].
  cbn [mbind option_bind] in *.
  rewrite !run_app, Hs1. cbn [mbind option_bind].
  rewrite !run_cons.
  change (step cfg mode Frame st1) with (frame cfg st1).
  destruct (step_total cfg mode Frame st1) as [st2 Hs2].
  change (step cfg mode Frame st1) with (frame cfg st1) in Hs2.
  rewrite Hs2. cbn [mbind option_bind]. rewrite run_cons.
  change (step cfg mode Frame st2) with (frame cfg st2).
  rewrite frame_idle; [done|].
  destruct (frame_cases cfg mode st1 st2 Hc1 Hs2)
    as [[Ht ->] | (_ & _ & _ & _ & Hq & _)]; [|done].
  destruct Hc1 as [[_ Hq] | [Ht' _]]; [done | congruence].
Qed.

(** ** Combined mode on a page that cannot scroll *)

Lemma short_page_atBottom w :
  maxRealScroll w <= 5 -> 0 <= scrollY w -> atBottom w = true.
Proof.
  intros Hm Hy. unfold atBottom. apply Qle_bool_iff. lra.
Qed.

Lemma step_in_step cfg ev sc sv sc' sv' :
  maxRealScroll (window sc) <= 5 ->
  scrollY (window sc) == 0 ->
  not_scroll ev = true ->
  in_step sc sv ->
  step cfg Combined ev sc = Some sc' ->
  step cfg VirtualOnly ev sv = Some sv' ->
  in_step sc' sv' /\ window sc' = window sc.
Proof.
  intros Hm Hy Hev (Hw & Hv & Ht & Hcc & Hcv & Hr) Hsc Hsv.
  destruct ev as [y | d |]; [done | |].
  - simpl in Hsc, Hsv. injection Hsc as <-. injection Hsv as <-.
    assert (Hpol : wheel_policy cfg d sc
                   = (Qmax 0 (Qmin (maxOffset (virtualScroll cfg))
                        (virtualScrollY sc
                         + d * sensitivity (virtualScroll cfg))), false)).
    { unfold wheel_policy.
      destruct (Qlt_bool 5 (maxRealScroll (window sc))) eqn:E; [|done].
      q_props. lra. }
    unfold onWheel_combined, onWheel_virtual. rewrite Hpol. simpl.
    rewrite <- Hv.
    set (v := Qmax 0 _).
    pose proof (schedule_coalesced Combined (set_virtualScrollY v sc) Hcc)
      as [Hcc' Htc'].
    pose proof (schedule_coalesced VirtualOnly (set_virtualScrollY v sv) Hcv)
      as [Hcv' Htv'].
    simpl in *. unfold in_step.
    rewrite !schedule_window, !schedule_virtualScrollY, !schedule_rendered.
    simpl. rewrite Htc', Htv'. done.
  - simpl in Hsc, Hsv.
    destruct (frame_cases cfg Combined sc sc' Hcc Hsc)
      as [[Htc ->] | (Htc & Hwc & Hvc & Htc' & Hqc & Hrc)];
    destruct (frame_cases cfg VirtualOnly sv sv' Hcv Hsv)
      as [[Htv ->] | (Htv & Hwv & Hvv & Htv' & Hqv & Hrv)];
      try congruence.
    + done.
    + assert (Hb : atBottom (window sc) = true)
        by (apply short_page_atBottom; lra).
      simpl in *. unfold getEffectiveScroll in *. rewrite Hb in *.
      simpl in *. split; [|done].
      unfold in_step. rewrite Hwc, Hwv, Hvc, Hvv, Htc', Htv', Hrc, Hrv.
      repeat split; try done.
      * by left.
      * by left.
      * apply Forall2_cons. split; [|done]. rewrite Hv. lra.
Qed.

Lemma run_in_step cfg evs sc sv :
  maxRealScroll (window sc) <= 5 ->
  scrollY (window sc) == 0 ->
  forallb not_scroll evs = true ->
  in_step sc sv ->
  exists sc' sv',
    run cfg Combined evs sc = Some sc' /\
    run cfg VirtualOnly evs sv = Some sv' /\
    in_step sc' sv'.
Proof.
  revert sc sv. induction evs as [|ev rest IH]; intros sc sv Hm Hy Hevs Hin.
  - exists sc, sv. done.
  - simpl in Hevs. apply andb_true_iff in Hevs as [Hev Hrest].
    destruct (step_total cfg Combined ev sc) as [sc1 Hsc].
    destruct (step_total cfg VirtualOnly ev sv) as [sv1 Hsv].
    destruct (step_in_step cfg ev sc sv sc1 sv1 Hm Hy Hev Hin Hsc Hsv)
      as [Hin1 Hw1].
    rewrite <- Hw1 in Hm, Hy.
    destruct (IH sc1 sv1 Hm Hy Hrest Hin1) as (sc' & sv' & Hc' & Hv' & Hin').
    exists sc', sv'. rewrite !run_cons, Hsc, Hsv. done.
Qed.

(** X10: on a page with nothing to scroll (maximum real scroll within the
    5-unit tolerance, real scroll offset 0) Combined mode is the virtual
    mode: after the same wheel events and frames both have the same
    virtual offset and have rendered the same positions. *)
Theorem combined_on_short_page_is_virtual cfg w dom evs :
  maxRealScroll w <= 5 ->
  scrollY w == 0 ->
  forallb not_scroll evs = true ->
  exists sc sv,
    session cfg Combined w dom evs = Some sc /\
    session cfg VirtualOnly w dom evs = Some sv /\
    virtualScrollY sc = virtualScrollY sv /\
    Forall2 Qeq (rendered sc) (rendered sv).
Proof.
  intros Hm Hy Hevs. unfold session.
  destruct (setup_spec cfg Combined w dom)
    as (c0 & -> & Hwc & Hvc & Htc & Hqc & Hrc).
  destruct (setup_spec cfg VirtualOnly w dom)
    as (v0 & -> & Hwv & Hvv & Htv & Hqv & Hrv).
  cbn [mbind option_bind].
  assert (Hin : in_step c0 v0).
  { unfold in_step. rewrite Hwc, Hwv, Hvc, Hvv, Htc, Htv, Hrc, Hrv.
    repeat split; try done; by left. }
  rewrite <- Hwc in Hm, Hy.
  destruct (run_in_step cfg evs c0 v0 Hm Hy Hevs Hin)
    as (sc & sv & Hsc & Hsv & (_ & Hv & _ & _ & _ & Hr)).
  exists sc, sv. done.
Qed.

Lemma combined_on_short_page_is_virtual_witness :
  exists sc sv,
    session CONFIG Combined (window (short_page_state 0)) sparse_document
      wild_wheels_only = Some sc /\
    session CONFIG VirtualOnly (window (short_page_state 0)) sparse_document
      wild_wheels_only = Some sv /\
    virtualScrollY sc = virtualScrollY sv /\
    Forall2 Qeq (rendered sc) (rendered sv).
Proof.
  apply (combined_on_short_page_is_virtual CONFIG
           (window (short_page_state 0)) sparse_document wild_wheels_only);
    solve [reflexivity | vm_compute; discriminate].
Defined.

(** * Star generation *)

Lemma scaled_unit r m : 0 <= r < 1 -> 0 <= m -> 0 <= r * m <= m.
Proof.
  intros [Hr0 Hr1] Hm. split.
  - apply Qmult_le_0_compat; lra.
  - assert (r * m <= 1 * m) by (apply Qmult_le_compat_r; lra). lra.
Qed.

Lemma interpolated r lo hi :
  0 <= r < 1 -> lo <= hi -> lo <= lo + r * (hi - lo) <= hi.
Proof.
  intros Hr Hlh.
  destruct (scaled_unit r (hi - lo) Hr) as [H0 H1]; lra.
Qed.

Lemma drift_index_in_range r :
  0 <= r < 1 ->
  template (array_get driftAnimations
              (Qfloor (r * inject_Z (Z.of_nat (length driftAnimations)))))
  ∈ driftAnimations.
Proof.
  intros [Hr0 Hr1]. simpl length.
  set (z := Qfloor (r * inject_Z (Z.of_nat 4))).
  assert (Hz : (0 <= z < 4)%Z).
  { split.
    - change 0%Z with (Qfloor 0). apply Qfloor_resp_le.
      change (inject_Z (Z.of_nat 4)) with 4. lra.
    - rewrite Zlt_Qlt.
      apply Qle_lt_trans with (r * inject_Z (Z.of_nat 4));
        [apply Qfloor_le|].
      change (inject_Z (Z.of_nat 4)) with 4. change (inject_Z 4) with 4. lra. }
  assert (Hcases : (z = 0 \/ z = 1 \/ z = 2 \/ z = 3)%Z) by lia.
  clearbody z.
  destruct Hcases as [-> | [-> | [-> | ->]]]; vm_compute;
    repeat (first [left | right]).
Qed.

Lemma drift_name_not_twinkle z :
  template (array_get driftAnimations z) <> "twinkle".
Proof.
  unfold array_get. destruct (z <? 0)%Z; [done|].
  destruct (Z.to_nat z) as [|[|[|[|k]]]]; done.
Qed.

Lemma generateStar_random scfg rng n :
  (n + 5 <= snd (generateStar scfg rng n) <= n + 10)%nat.
Proof.
  unfold generateStar, random.
  destruct (Qlt_bool (rng (S (S (S n)))) _); simpl;
    match goal with
    | |- context [if ?c then _ else _] => destruct c
    end; simpl; lia.
Qed.

Lemma generateStar_ok scfg rng n :
  unit_interval rng ->
  timing_ok (twinkle scfg) ->
  timing_ok (drift scfg) ->
  star_ok scfg (fst (generateStar scfg rng n)).
Proof.
  intros Hrng [Htd Htl] [Hdd Hdl].
  assert (Htwinkle : forall m,
            animation_ok scfg
              {| animationName := "twinkle";
                 duration := durationMin (twinkle scfg)
                   + rng m * (durationMax (twinkle scfg)
                              - durationMin (twinkle scfg));
                 timingFunction := ""; delay := None |}).
  { intros m. left. simpl. repeat split; try done;
      by apply interpolated. }
  assert (Hdrift : forall m1 m2 m3,
            animation_ok scfg
              {| animationName :=
                   template (array_get driftAnimations
                     (Qfloor (rng m1
                        * inject_Z (Z.of_nat (length driftAnimations)))));
                 duration := durationMin (drift scfg)
                   + rng m2 * (durationMax (drift scfg)
                               - durationMin (drift scfg));
                 timingFunction := "ease-in-out";
                 delay := Some (rng m3 * delayMax (drift scfg)) |}).
  { intros m1 m2 m3. right. simpl. repeat split; try done.
    - by apply drift_index_in_range.
    - eexists. split; [done|]. by apply scaled_unit.
    - by apply interpolated.
    - by apply interpolated. }
  unfold star_ok, generateStar, random.
  pose proof (Hrng n) as H1. pose proof (Hrng (S n)) as H2.
  pose proof (Hrng (S (S n))) as H3.
  destruct (Qlt_bool (rng (S (S (S n)))) _); simpl;
    match goal with
    | |- context [if ?c then _ else _] => destruct c
    end; simpl;
    repeat split; try done; try lra; try lia;
    repeat (apply Forall_cons; split); try done;
    try (apply scaled_unit; done);
    exact (Hdrift _ _ _).
Qed.

Lemma generateStar_effects scfg rng n :
  unit_interval rng ->
  (twinkleChance (effects scfg) <= 0 ->
   ~ has_twinkle (fst (generateStar scfg rng n))) /\
  (1 <= twinkleChance (effects scfg) ->
   has_twinkle (fst (generateStar scfg rng n))) /\
  (driftChance (effects scfg) <= 0 ->
   ~ has_drift (fst (generateStar scfg rng n))) /\
  (1 <= driftChance (effects scfg) ->
   has_drift (fst (generateStar scfg rng n))).
Proof.
  intros Hrng. unfold has_twinkle, has_drift, generateStar, random.
  destruct (Qlt_bool (rng (S (S (S n)))) _) eqn:Et; simpl;
    match goal with
    | |- context [if ?c then _ else _] => destruct c eqn:Ed
    end; simpl; q_props;
    repeat match goal with
    | H : context [rng ?m] |- _ =>
        lazymatch goal with
        | _ : 0 <= rng m < 1 |- _ => fail
        | _ => pose proof (Hrng m)
        end
    end;
    (split; [|split; [|split]]); intros Hc;
    rewrite ?Exists_cons, ?Exists_nil; simpl;
    try lra; try (by left);
    try (by right; left);
    try (intros [? | [? | ?]]; try done;
         by eapply drift_name_not_twinkle);
    try (intros [? | ?]; try done;
         by eapply drift_name_not_twinkle).
Qed.

Lemma appendChild_spec id nd pg :
  exists pg',
    appendChild (Some id) nd pg = Some pg' /\
    page_elements pg' = page_elements pg /\
    page_body pg' = page_body pg /\
    page_children pg' !! id
      = Some (default [] (page_children pg !! id) ++ [nd]) /\
    (forall id', id' <> id ->
       page_children pg' !! id' = page_children pg !! id').
Proof.
  eexists. split; [reflexivity|]. simpl.
  repeat split; try done.
  - by rewrite lookup_insert_eq.
  - intros id' Hne. by rewrite lookup_insert_ne.
Qed.

(** What a run of [generateStars] on an existing layer does, with any
    property [P] that every generated star has. *)
Lemma generateStars_spec scfg rng (P : Star -> Prop) id count pg n :
  (forall m, P (fst (generateStar scfg rng m))) ->
  exists pg' n' stars,
    generateStars scfg rng (Some id) count pg n = Some (pg', n') /\
    page_elements pg' = page_elements pg /\
    page_body pg' = page_body pg /\
    (forall id', id' <> id ->
       page_children pg' !! id' = page_children pg !! id') /\
    (count = 0%nat -> pg' = pg) /\
    (count <> 0%nat ->
     page_children pg' !! id
       = Some (default [] (page_children pg !! id) ++ (StarNode <$> stars))) /\
    length stars = count /\
    Forall P stars /\
    (n + 5 * count <= n' <= n + 10 * count)%nat.
Proof.
  intros HP. revert pg n.
  induction count as [|c IH]; intros pg n; cbn [generateStars].
  - exists pg, n, []. repeat split; try done; lia.
  - pose proof (generateStar_random scfg rng n) as Hn.
    pose proof (HP n) as HPs.
    destruct (generateStar scfg rng n) as [star n1]. simpl in Hn, HPs.
    destruct (appendChild_spec id (StarNode star) pg)
      as (pg1 & -> & He1 & Hb1 & Hc1 & Ho1).
    cbn [mbind option_bind].
    destruct (IH pg1 n1)
      as (pg' & n' & stars & -> & He & Hb & Ho & Hz & Hc & Hl & HF & Hn').
    exists pg', n', (star :: stars).
    repeat split; try congruence; try lia.
    + intros id' Hne. rewrite Ho by done. by apply Ho1.
    + intros _. destruct c as [|c'].
      * rewrite Hz by done. rewrite Hc1.
        destruct stars; [done | simpl in Hl; lia].
      * rewrite Hc by done. rewrite Hc1. simpl.
        by rewrite <- app_assoc.
    + simpl. by rewrite Hl.
    + by apply Forall_cons.
Qed.

(** X12: [generateStars] appends exactly [count] stars behind the children the
    layer already has and touches nothing else on the page; each star
    takes between 5 and 10 random numbers.  On a [null] layer it throws
    as soon as there is a star to append, and does nothing for count 0. *)
Theorem generateStars_appends_count scfg rng id count pg n :
  (exists pg' n' stars,
     generateStars scfg rng (Some id) (S count) pg n = Some (pg', n') /\
     page_children pg' !! id
       = Some (default [] (page_children pg !! id) ++ (StarNode <$> stars)) /\
     length stars = S count /\
     page_elements pg' = page_elements pg /\
     page_body pg' = page_body pg /\
     (forall id', id' <> id ->
        page_children pg' !! id' = page_children pg !! id') /\
     (n + 5 * S count <= n' <= n + 10 * S count)%nat) /\
  generateStars scfg rng (Some id) 0 pg n = Some (pg, n) /\
  generateStars scfg rng None (S count) pg n = None /\
  generateStars scfg rng None 0 pg n = Some (pg, n).
Proof.
  split; [|split; [done|split; [|done]]].
  - destruct (generateStars_spec scfg rng (fun _ => True) id (S count) pg n)
      as (pg' & n' & stars & Hrun & He & Hb & Ho & _ & Hc & Hl & _ & Hn);
      [done|].
    exists pg', n', stars. repeat split; try done; try lia. by apply Hc.
  - simpl. by destruct (generateStar scfg rng n).
Qed.

(** X13: with random numbers in [0, 1) and the shipped twinkle and drift
    settings (durations 2..5 and 8..20 seconds, delays up to 5 seconds),
    every star [generateStars] appends has class 'star', a position within
    [0, 100] percent, a scale within [0.5, 1.5], at most two animations
    (a twinkle with its duration within the twinkle range, a drift whose
    name is one of the four drift animations, never undefined, with
    duration and delay within the drift ranges) and an animation delay
    within [0, twinkle.delayMax]. *)
Theorem generateStars_within_config scfg rng id count pg n :
  unit_interval rng ->
  twinkle scfg = twinkle STAR_CONFIG ->
  drift scfg = drift STAR_CONFIG ->
  exists pg' n' stars,
    generateStars scfg rng (Some id) (S count) pg n = Some (pg', n') /\
    page_children pg' !! id
      = Some (default [] (page_children pg !! id) ++ (StarNode <$> stars)) /\
    length stars = S count /\
    Forall (star_ok scfg) stars.
Proof.
  intros Hrng Htw Hdr.
  destruct (generateStars_spec scfg rng (star_ok scfg) id (S count) pg n)
    as (pg' & n' & stars & Hrun & _ & _ & _ & _ & Hc & Hl & HF & _).
  { intros m. apply generateStar_ok; [done| |].
    - rewrite Htw. split; vm_compute; discriminate.
    - rewrite Hdr. split; vm_compute; discriminate. }
  exists pg', n', stars. repeat split; try done. by apply Hc.
Qed.

Lemma demo_rng_unit_interval : unit_interval demo_rng.
Proof.
  intros n. unfold demo_rng, Qle, Qlt. simpl.
  pose proof (Nat.mod_upper_bound n 7). lia.
Qed.

Lemma low_rng_unit_interval : unit_interval low_rng.
Proof.
  intros n. unfold low_rng, Qle, Qlt. simpl.
  pose proof (Nat.mod_upper_bound n 3). lia.
Qed.

(** With [low_rng] the first star takes both branches: it twinkles and
    drifts. *)
Example low_rng_first_star :
  fst (generateStar STAR_CONFIG low_rng 0)
  = {| star_className := "star";
       star_left := low_rng 0 * 100; star_top := low_rng 1 * 100;
       star_scale := (5 # 10) + low_rng 2 * 1;
       star_animation :=
         [{| animationName := "twinkle";
             duration := 2 + low_rng 4 * (5 - 2);
             timingFunction := ""; delay := None |};
          {| animationName := "driftLeft";
             duration := 8 + low_rng 8 * (20 - 8);
             timingFunction := "ease-in-out";
             delay := Some (low_rng 9 * 5) |}];
       star_animationDelay := Some (low_rng 5 * 5) |}.
Proof. vm_compute. reflexivity. Qed.

Lemma generateStars_within_config_witness :
  exists pg' n' stars,
    generateStars STAR_CONFIG low_rng (Some (layer_id 1)) (S 29) empty_page 0
      = Some (pg', n') /\
    page_children pg' !! layer_id 1
      = Some (default [] (page_children empty_page !! layer_id 1)
              ++ (StarNode <$> stars)) /\
    length stars = S 29 /\
    Forall (star_ok STAR_CONFIG) stars.
Proof.
  apply (generateStars_within_config STAR_CONFIG low_rng (layer_id 1) 29
           empty_page 0).
  - exact low_rng_unit_interval.
  - reflexivity.
  - reflexivity.
Defined.

(** X14: a chance of 0 or less switches an effect off for every star, a chance
    of 1 or more switches it on for every star. *)
Theorem generateStars_effect_chances scfg rng id count pg n :
  unit_interval rng ->
  exists pg' n' stars,
    generateStars scfg rng (Some id) (S count) pg n = Some (pg', n') /\
    page_children pg' !! id
      = Some (default [] (page_children pg !! id) ++ (StarNode <$> stars)) /\
    (twinkleChance (effects scfg) <= 0 ->
     Forall (fun s => ~ has_twinkle s) stars) /\
    (1 <= twinkleChance (effects scfg) -> Forall has_twinkle stars) /\
    (driftChance (effects scfg) <= 0 ->
     Forall (fun s => ~ has_drift s) stars) /\
    (1 <= driftChance (effects scfg) -> Forall has_drift stars).
Proof.
  intros Hrng.
  destruct (generateStars_spec scfg rng
              (fun s =>
                 (twinkleChance (effects scfg) <= 0 -> ~ has_twinkle s) /\
                 (1 <= twinkleChance (effects scfg) -> has_twinkle s) /\
                 (driftChance (effects scfg) <= 0 -> ~ has_drift s) /\
                 (1 <= driftChance (effects scfg) -> has_drift s))
              id (S count) pg n)
    as (pg' & n' & stars & Hrun & _ & _ & _ & _ & Hc & _ & HF & _).
  { intros m. by apply generateStar_effects. }
  exists pg', n', stars. split; [done|]. split; [by apply Hc|].
  repeat split; intros Hch; eapply Forall_impl; try exact HF;
    intros s (? & ? & ? & ?); auto.
Qed.

Lemma generateStars_effect_chances_witness :
  (exists pg' n' stars,
     generateStars drift_only_config demo_rng (Some (layer_id 1)) (S 29)
       empty_page 0 = Some (pg', n') /\
     page_children pg' !! layer_id 1
       = Some (default [] (page_children empty_page !! layer_id 1)
               ++ (StarNode <$> stars)) /\
     Forall (fun s => ~ has_twinkle s) stars /\
     Forall has_drift stars) /\
  (exists pg' n' stars,
     generateStars twinkle_only_config demo_rng (Some (layer_id 1)) (S 29)
       empty_page 0 = Some (pg', n') /\
     page_children pg' !! layer_id 1
       = Some (default [] (page_children empty_page !! layer_id 1)
               ++ (StarNode <$> stars)) /\
     Forall has_twinkle stars /\
     Forall (fun s => ~ has_drift s) stars).
Proof.
  split.
  - destruct (generateStars_effect_chances drift_only_config demo_rng
                (layer_id 1) 29 empty_page 0 demo_rng_unit_interval)
      as (pg' & n' & stars & Hrun & Hc & Hoff & _ & _ & Hon).
    exists pg', n', stars. split; [exact Hrun|]. split; [exact Hc|].
    split; [apply Hoff | apply Hon]; vm_compute; discriminate.
  - destruct (generateStars_effect_chances twinkle_only_config demo_rng
                (layer_id 1) 29 empty_page 0 demo_rng_unit_interval)
      as (pg' & n' & stars & Hrun & Hc & _ & Hon & Hoff & _).
    exists pg', n', stars. split; [exact Hrun|]. split; [exact Hc|].
    split; [apply Hon | apply Hoff]; vm_compute; discriminate.
Defined.

(** * Building the page *)

Lemma layer_id_not_container i : layer_id i <> container_id.
Proof. unfold layer_id, container_id. simpl. discriminate. Qed.

Lemma create_layers_spec idxs pg cs :
  page_children pg !! container_id = Some cs ->
  exists pg',
    create_layers idxs pg = Some pg' /\
    page_body pg' = page_body pg /\
    page_elements pg' !! container_id = page_elements pg !! container_id /\
    page_children pg' !! container_id
      = Some (cs ++ (ElementNode <$> (layer_id <$> idxs))) /\
    (forall i, i ∈ idxs ->
       page_elements pg' !! layer_id i
         = Some {| className := layer_className i; transform := None |} /\
       page_children pg' !! layer_id i = Some []) /\
    (forall id, id <> container_id ->
       (forall i, i ∈ idxs -> id <> layer_id i) ->
       page_elements pg' !! id = page_elements pg !! id /\
       page_children pg' !! id = page_children pg !! id).
Proof.
  revert pg cs. induction idxs as [|i rest IH]; intros pg cs Hcs;
    cbn [create_layers].
  - exists pg. rewrite app_nil_r. do 4 (split; [done|]). split; [|done].
    intros i Hi. by apply elem_of_nil in Hi.
  - set (pg1 := createElement (layer_className i) (layer_id i) pg).
    destruct (appendChild_spec container_id (ElementNode (layer_id i)) pg1)
      as (pg2 & -> & He2 & Hb2 & Hc2 & Ho2).
    cbn [mbind option_bind].
    assert (Hcs1 : page_children pg1 !! container_id = Some cs).
    { simpl. rewrite lookup_insert_ne; [done|]. apply layer_id_not_container. }
    rewrite Hcs1 in Hc2. simpl in Hc2.
    destruct (IH pg2 _ Hc2) as (pg' & -> & Hb & Hec & Hcc & Hin & Hout).
    exists pg'. split; [done|]. split; [by rewrite Hb, Hb2|].
    assert (Hnew : page_elements pg2 !! layer_id i
                     = Some {| className := layer_className i;
                               transform := None |} /\
                   page_children pg2 !! layer_id i = Some []).
    { rewrite He2, Ho2 by apply layer_id_not_container. simpl.
      by rewrite !lookup_insert_eq. }
    split; [|split; [|split]].
    + rewrite Hec, He2. simpl. rewrite lookup_insert_ne; [done|].
      apply layer_id_not_container.
    + rewrite Hcc. simpl. by rewrite <- app_assoc.
    + intros j Hj.
      destruct (decide (j ∈ rest)) as [Hr | Hr]; [by apply Hin|].
      apply elem_of_cons in Hj as [-> | ?]; [|done].
      destruct (Hout (layer_id i) (layer_id_not_container i)) as [-> ->];
        [|exact Hnew].
      intros k Hk Heq. apply layer_id_inj in Heq. by subst.
    + intros id Hid Hl.
      destruct (Hout id Hid) as [-> ->]; [intros k Hk; apply Hl; by right|].
      assert (Hne : layer_id i <> id)
        by (intros Heq; by apply (Hl i); [left|]).
      rewrite He2, Ho2 by done. simpl. by rewrite !lookup_insert_ne.
Qed.

Lemma fill_layers_spec scfg rng (P : Star -> Prop) idxs pg n :
  (forall m, P (fst (generateStar scfg rng m))) ->
  NoDup idxs ->
  (forall i, i ∈ idxs ->
     is_Some (page_elements pg !! layer_id i) /\
     is_Some (page_children pg !! layer_id i)) ->
  exists pg' n',
    fill_layers scfg rng idxs pg n = Some (pg', n') /\
    page_elements pg' = page_elements pg /\
    page_body pg' = page_body pg /\
    (forall i, i ∈ idxs ->
       exists stars,
         page_children pg' !! layer_id i
           = Some (default [] (page_children pg !! layer_id i)
                   ++ (StarNode <$> stars)) /\
         length stars = count_field (starCount scfg) i /\
         Forall P stars) /\
    (forall id, (forall i, i ∈ idxs -> id <> layer_id i) ->
       page_children pg' !! id = page_children pg !! id).
Proof.
  intros HP. revert pg n.
  induction idxs as [|i rest IH]; intros pg n Hnd Hpre; cbn [fill_layers].
  - exists pg, n. do 3 (split; [done|]). split; [|done].
    intros i Hi. by apply elem_of_nil in Hi.
  - apply NoDup_cons in Hnd as [Hi Hnd].
    destruct (Hpre i) as [[e He] [old Hold]]; [by left|].
    unfold getElementById. rewrite He.
    destruct (generateStars_spec scfg rng P (layer_id i)
                (count_field (starCount scfg) i) pg n HP)
      as (pg1 & n1 & stars & -> & He1 & Hb1 & Ho1 & Hz1 & Hc1 & Hl1 & HF1 & _).
    cbn [mbind option_bind].
    assert (Hci : page_children pg1 !! layer_id i
                  = Some (old ++ (StarNode <$> stars))).
    { destruct (count_field (starCount scfg) i) as [|c] eqn:Ec.
      - rewrite Hz1 by done. rewrite Hold.
        destruct stars; [by rewrite app_nil_r | done].
      - rewrite Hc1 by done. by rewrite Hold. }
    destruct (IH pg1 n1 Hnd) as (pg' & n' & -> & He' & Hb' & Hin' & Hout').
    { intros j Hj. rewrite He1. split; [by apply Hpre; right|].
      rewrite Ho1; [by apply Hpre; right|].
      intros Heq. apply layer_id_inj in Heq. by subst. }
    exists pg', n'. split; [done|].
    split; [congruence|]. split; [congruence|]. split.
    + intros j Hj. apply elem_of_cons in Hj as [-> | Hj].
      * exists stars. rewrite Hout', Hci, Hold; [done|].
        intros k Hk Heq. apply layer_id_inj in Heq. by subst.
      * destruct (Hin' j Hj) as (sj & Hcj & Hlj & HFj).
        exists sj. rewrite Hcj, Ho1; [done|].
        intros Heq. apply layer_id_inj in Heq. by subst.
    + intros id Hid. rewrite Hout', Ho1; [done| |].
      * by apply Hid; left.
      * intros j Hj. by apply Hid; right.
Qed.

(** What [createStarBackground] builds, with any property [P] that every
    generated star has. *)
Lemma createStarBackground_spec scfg rng (P : Star -> Prop) pg n :
  (forall m, P (fst (generateStar scfg rng m))) ->
  exists pg' n',
    createStarBackground scfg rng pg n = Some (pg', n') /\
    page_body pg' = container_id :: page_body pg /\
    page_elements pg' !! container_id
      = Some {| className := "star-container"; transform := None |} /\
    page_children pg' !! container_id
      = Some (ElementNode <$> (layer_id <$> [5; 4; 3; 2; 1]%nat)) /\
    (forall i, (1 <= i <= 5)%nat ->
       page_elements pg' !! layer_id i
         = Some {| className := layer_className i; transform := None |} /\
       exists stars,
         page_children pg' !! layer_id i = Some (StarNode <$> stars) /\
         length stars = count_field (starCount scfg) i /\
         Forall P stars) /\
    (forall id, id <> container_id ->
       (forall i, (1 <= i <= 5)%nat -> id <> layer_id i) ->
       page_elements pg' !! id = page_elements pg !! id /\
       page_children pg' !! id = page_children pg !! id).
Proof.
  intros HP. unfold createStarBackground.
  set (pg0 := createElement "star-container" container_id pg).
  assert (Hc0 : page_children pg0 !! container_id = Some [])
    by (simpl; by rewrite lookup_insert_eq).
  destruct (create_layers_spec [5; 4; 3; 2; 1]%nat pg0 [] Hc0)
    as (pg1 & -> & Hb1 & He1 & Hc1 & Hin1 & Hout1).
  cbn [mbind option_bind].
  assert (Hidx : forall i, i ∈ seq 1 5 -> i ∈ [5; 4; 3; 2; 1]%nat).
  { intros i Hi. apply layer_indices in Hi. rewrite !elem_of_cons. lia. }
  assert (Hidx' : forall i, i ∈ [5; 4; 3; 2; 1]%nat -> (1 <= i <= 5)%nat).
  { intros i Hi. rewrite !elem_of_cons, elem_of_nil in Hi. lia. }
  destruct (fill_layers_spec scfg rng P (seq 1 5)
              (insertFirst container_id pg1) n HP (NoDup_seq _ _))
    as (pg' & n' & -> & He' & Hb' & Hin' & Hout').
  { intros i Hi. simpl. destruct (Hin1 i (Hidx i Hi)) as [-> ->]. eauto. }
  exists pg', n'. split; [done|]. simpl in *.
  split; [congruence|]. split; [|split; [|split]].
  - rewrite He', He1. by rewrite lookup_insert_eq.
  - rewrite Hout', Hc1; [done|].
    intros i _ Heq. symmetry in Heq. by apply layer_id_not_container in Heq.
  - intros i Hi. apply layer_indices in Hi.
    destruct (Hin1 i (Hidx i Hi)) as [Hei Hci].
    split; [by rewrite He'|].
    destruct (Hin' i Hi) as (stars & Hs & Hl & HF).
    exists stars. rewrite Hs, Hci. done.
  - intros id Hid Hl.
    destruct (Hout1 id Hid) as [Hei Hci].
    { intros i Hi. by apply Hl, Hidx'. }
    rewrite He', Hei, Hout', Hci.
    + by rewrite !lookup_insert_ne.
    + intros i Hi. by apply Hl, layer_indices.
Qed.

(** X15: on a page that has no element with the id of the container or
    of a layer yet, [createStarBackground] does not throw.  Afterwards the
    container is the first child of body and holds the five layers,
    farthest first; every layer exists under its id with its class name
    and no transform yet, and holds exactly [starCount.layer<i>] stars;
    elements with other ids are as before. *)
Theorem createStarBackground_builds_layers scfg rng pg n :
  fresh_ids pg ->
  exists pg' n',
    createStarBackground scfg rng pg n = Some (pg', n') /\
    page_body pg' = container_id :: page_body pg /\
    page_elements pg' !! container_id
      = Some {| className := "star-container"; transform := None |} /\
    page_children pg' !! container_id
      = Some [ElementNode (layer_id 5); ElementNode (layer_id 4);
              ElementNode (layer_id 3); ElementNode (layer_id 2);
              ElementNode (layer_id 1)] /\
    (forall i, (1 <= i <= 5)%nat ->
       page_elements pg' !! layer_id i
         = Some {| className := layer_className i; transform := None |} /\
       exists stars,
         page_children pg' !! layer_id i = Some (StarNode <$> stars) /\
         length stars = count_field (starCount scfg) i) /\
    (forall id, id <> container_id ->
       (forall i, (1 <= i <= 5)%nat -> id <> layer_id i) ->
       page_elements pg' !! id = page_elements pg !! id /\
       page_children pg' !! id = page_children pg !! id).
Proof.
  intros _.
  destruct (createStarBackground_spec scfg rng (fun _ => True) pg n)
    as (pg' & n' & Hrun & Hb & Hec & Hcc & Hin & Hout); [done|].
  exists pg', n'. do 4 (split; [done|]). split; [|done].
  intros i Hi. destruct (Hin i Hi) as [He (stars & Hs & Hl & _)].
  split; [done|]. by exists stars.
Qed.

Lemma plain_page_fresh_ids : fresh_ids plain_page.
Proof.
  split; [reflexivity|]. intros i Hi.
  assert (Hcases : (i = 1 \/ i = 2 \/ i = 3 \/ i = 4 \/ i = 5)%nat) by lia.
  destruct Hcases as [-> | [-> | [-> | [-> | ->]]]]; reflexivity.
Qed.

Lemma createStarBackground_builds_layers_witness :
  exists pg' n',
    createStarBackground STAR_CONFIG demo_rng plain_page 0 = Some (pg', n') /\
    page_body pg' = container_id :: page_body plain_page /\
    page_elements pg' !! container_id
      = Some {| className := "star-container"; transform := None |} /\
    page_children pg' !! container_id
      = Some [ElementNode (layer_id 5); ElementNode (layer_id 4);
              ElementNode (layer_id 3); ElementNode (layer_id 2);
              ElementNode (layer_id 1)] /\
    (forall i, (1 <= i <= 5)%nat ->
       page_elements pg' !! layer_id i
         = Some {| className := layer_className i; transform := None |} /\
       exists stars,
         page_children pg' !! layer_id i = Some (StarNode <$> stars) /\
         length stars = count_field (starCount STAR_CONFIG) i) /\
    (forall id, id <> container_id ->
       (forall i, (1 <= i <= 5)%nat -> id <> layer_id i) ->
       page_elements pg' !! id = page_elements plain_page !! id /\
       page_children pg' !! id = page_children plain_page !! id).
Proof.
  apply (createStarBackground_builds_layers STAR_CONFIG demo_rng plain_page 0).
  exact plain_page_fresh_ids.
Defined.

Example createStarBackground_star_counts :
  (fun '(pg, n) =>
     (length <$> page_children pg !! layer_id 1,
      length <$> page_children pg !! layer_id 5,
      page_body pg))
    <$> createStarBackground STAR_CONFIG demo_rng empty_page 0
  = Some (Some 30%nat, Some 300%nat, ["star-container"]).
Proof. vm_compute. reflexivity. Qed.

(** X16: on a page that has no element with the id of the container or
    of a layer yet, a render pass after [createStarBackground] finds all
    five layers: each gets the offset [-position * coefficient] and keeps
    its class name. *)
Theorem render_after_createStarBackground scfg cfg rng pg n p :
  fresh_ids pg ->
  exists pg' n' dom',
    createStarBackground scfg rng pg n = Some (pg', n') /\
    updateStarPositions_dom cfg p (page_elements pg') = Some dom' /\
    forall i, (1 <= i <= 5)%nat ->
      dom' !! layer_id i
      = Some {| className := layer_className i;
                transform := Some (- p * layer_field (parallax cfg) i) |}.
Proof.
  intros _.
  destruct (createStarBackground_spec scfg rng (fun _ => True) pg n)
    as (pg' & n' & Hrun & _ & _ & _ & Hin & _); [done|].
  destruct (updateStarPositions_dom_total cfg p (page_elements pg'))
    as [dom' Hdom].
  exists pg', n', dom'. do 2 (split; [done|]).
  intros i Hi. destruct (Hin i Hi) as [He _].
  rewrite (update_layers_layer _ _ _ _ _ _ Hdom (NoDup_seq _ _));
    [|by apply layer_indices].
  by rewrite He.
Qed.

Lemma render_after_createStarBackground_witness :
  exists pg' n' dom',
    createStarBackground STAR_CONFIG demo_rng plain_page 0 = Some (pg', n') /\
    updateStarPositions_dom CONFIG 200 (page_elements pg') = Some dom' /\
    forall i, (1 <= i <= 5)%nat ->
      dom' !! layer_id i
      = Some {| className := layer_className i;
                transform := Some (- 200 * layer_field (parallax CONFIG) i) |}.
Proof.
  apply (render_after_createStarBackground STAR_CONFIG CONFIG demo_rng
           plain_page 0 200).
  exact plain_page_fresh_ids.
Defined.

(** * [init] *)

Lemma setup_document cfg mode w (dom : DOM) :
  exists st dom',
    setup cfg mode w dom = Some st /\
    updateStarPositions_dom cfg
      (match mode with RealOnly => scrollY w | _ => 0 end) dom = Some dom' /\
    document st = dom' /\
    window st = w /\
    virtualScrollY st = 0 /\
    ticking st = false /\
    rafQueue st = [] /\
    rendered st = [match mode with RealOnly => scrollY w | _ => 0 end].
Proof.
  destruct mode; simpl; unfold updateStarPositions; simpl.
  - destruct (updateStarPositions_dom_total cfg (scrollY w) dom) as [d ->].
    simpl. eauto 10.
  - destruct (updateStarPositions_dom_total cfg 0 dom) as [d ->].
    simpl. eauto 10.
  - destruct (updateStarPositions_dom_total cfg 0 dom) as [d ->].
    simpl. eauto 10.
Qed.

(** X17: [init] called without argument or with an options object, on a
    page that has no element with the id of the container or of a layer
    yet and with the document ready, does not throw and leaves a running
    system: RealOnly mode unless [virtualScroll] is true, then Combined,
    never the virtual-only handlers; all five layers rendered once, at the
    real scroll offset in RealOnly mode and at 0 in Combined mode whatever
    the real scroll offset is; no frame requested; page scrolling switched
    off only when [scrollable] is false and otherwise left as it was.
    While the document is loading [init] starts nothing, and the
    DOMContentLoaded listener then does the same.  No argument is the
    empty options object, and [init(null)] throws. *)
Theorem init_starts_system scfg cfg rng options w pg ov n :
  fresh_ids pg ->
  let scrollable := default true (opt_scrollable options) in
  let virtual := default false (opt_virtualScroll options) in
  let p0 := if virtual then 0 else scrollY w in
  (exists r,
     init scfg cfg rng (OptionsArgument options) false w pg ov n
       = Some {| useVirtualScroll := virtual; started := Some r |} /\
     init scfg cfg rng (OptionsArgument options) true w pg ov n
       = Some {| useVirtualScroll := virtual; started := None |} /\
     onDOMContentLoaded scfg cfg rng options w pg ov n = Some r /\
     running_mode r = (if virtual then Combined else RealOnly) /\
     running_overflow r
       = (if scrollable then ov
          else {| body_overflow := "hidden"; html_overflow := "hidden" |}) /\
     window (running_state r) = w /\
     virtualScrollY (running_state r) = 0 /\
     ticking (running_state r) = false /\
     rafQueue (running_state r) = [] /\
     rendered (running_state r) = [p0] /\
     (forall i, (1 <= i <= 5)%nat ->
        document (running_state r) !! layer_id i
        = Some {| className := layer_className i;
                  transform :=
                    Some (- p0 * layer_field (parallax cfg) i) |}) /\
     running_body r = container_id :: page_body pg) /\
  (forall loading,
     init scfg cfg rng NoArgument loading w pg ov n
     = init scfg cfg rng
         (OptionsArgument {| opt_scrollable := None;
                             opt_virtualScroll := None |})
         loading w pg ov n) /\
  (forall loading, init scfg cfg rng NullArgument loading w pg ov n = None).
Proof.
  intros _ scrollable virtual p0. split; [|by split].
  destruct (createStarBackground_spec scfg rng (fun _ => True) pg n)
    as (pg' & n' & Hrun & Hb & _ & _ & Hin & _); [done|].
  destruct (setup_document cfg (init_mode virtual) w (page_elements pg'))
    as (st & dom' & Hst & Hdom & Hd & Hw & Hv & Ht & Hq & Hr).
  assert (Hp0 : match init_mode virtual with
                | RealOnly => scrollY w
                | _ => 0
                end = p0) by (unfold p0; by destruct virtual).
  rewrite Hp0 in *.
  exists {| running_mode := init_mode virtual; running_state := st;
            running_children := page_children pg';
            running_body := page_body pg';
            running_overflow :=
              if negb scrollable then disableScroll ov else ov;
            running_random := n' |}.
  unfold init, onDOMContentLoaded, setup_page, destructure.
  cbn [mbind option_bind]. fold scrollable. fold virtual.
  rewrite Hrun. cbn [mbind option_bind]. rewrite Hst. cbn [mbind option_bind].
  simpl. do 3 (split; [done|]).
  split; [by destruct virtual|]. split; [by destruct scrollable|].
  do 5 (split; [done|]). split; [|done].
  intros i Hi. destruct (Hin i Hi) as [He _].
  rewrite Hd.
  rewrite (update_layers_layer _ _ _ _ _ _ Hdom (NoDup_seq _ _));
    [|by apply layer_indices].
  by rewrite He.
Qed.

(** [init({ scrollable: false, virtualScroll: true })] on a page that is
    already scrolled to 300. *)
Lemma init_starts_system_witness :
  exists r,
    init STAR_CONFIG CONFIG demo_rng
      (OptionsArgument {| opt_scrollable := Some false;
                          opt_virtualScroll := Some true |})
      false (with_scrollY 300 tall_page) plain_page
      {| body_overflow := "auto"; html_overflow := "" |} 0
      = Some {| useVirtualScroll := true; started := Some r |} /\
    running_mode r = Combined /\
    running_overflow r
      = {| body_overflow := "hidden"; html_overflow := "hidden" |} /\
    rendered (running_state r) = [0] /\
    running_body r = ["star-container"; "header"; "main"].
Proof.
  destruct (init_starts_system STAR_CONFIG CONFIG demo_rng
              {| opt_scrollable := Some false; opt_virtualScroll := Some true |}
              (with_scrollY 300 tall_page) plain_page
              {| body_overflow := "auto"; html_overflow := "" |} 0
              plain_page_fresh_ids)
    as [(r & Hinit & _ & _ & Hmode & Hov & _ & _ & _ & _ & Hr & _ & Hb) _].
  exists r. split; [exact Hinit|]. split; [exact Hmode|].
  split; [exact Hov|]. split; [exact Hr | exact Hb].
Defined.

(** * The scroll spacer *)

Lemma ensureScrollableHeight_cases arg w b :
  (tall_enough (arg, w) /\ ensureScrollableHeight arg w b = b) \/
  (~ tall_enough (arg, w) /\
   exists h,
     0 < h /\
     h = innerHeight w * default 3 arg - scrollHeight w /\
     match body_spacer b with
     | Some sp =>
         ensureScrollableHeight arg w b
         = {| body_children := body_children b;
              body_spacer :=
                Some {| spacer_pointerEvents := spacer_pointerEvents sp;
                        spacer_height := Some h |} |}
     | None =>
         ensureScrollableHeight arg w b
         = {| body_children := body_children b ++ [spacer_id];
              body_spacer :=
                Some {| spacer_pointerEvents := "none";
                        spacer_height := Some h |} |}
     end).
Proof.
  unfold ensureScrollableHeight, tall_enough. simpl.
  destruct (Qlt_bool (scrollHeight w) (innerHeight w * default 3 arg)) eqn:E;
    q_props.
  - right. split; [lra|]. eexists. split; [|split; [reflexivity|]].
    + lra.
    + by destruct (body_spacer b).
  - left. done.
Qed.

(** X18: starting from a page without a spacer, however often
    [ensureScrollableHeight] is called and whatever the window measures:
    body never gets a second spacer (its children are the original ones,
    followed by the spacer exactly when one was created), a spacer that
    exists has pointer events off and a height above 0, and as long as the
    page is tall enough at every call nothing is created at all. *)
Theorem ensureScrollableHeight_one_spacer calls b :
  body_spacer b = None ->
  (match body_spacer (ensure_calls calls b) with
   | None => body_children (ensure_calls calls b) = body_children b
   | Some sp =>
       body_children (ensure_calls calls b) = body_children b ++ [spacer_id] /\
       spacer_pointerEvents sp = "none" /\
       exists h, spacer_height sp = Some h /\ 0 < h
   end) /\
  (Forall tall_enough calls -> ensure_calls calls b = b).
Proof.
  intros Hnone. split.
  - set (inv := fun b' : Body =>
                  match body_spacer b' with
                  | None => body_children b' = body_children b
                  | Some sp =>
                      body_children b' = body_children b ++ [spacer_id] /\
                      spacer_pointerEvents sp = "none" /\
                      exists h, spacer_height sp = Some h /\ 0 < h
                  end).
    assert (Hinv : forall cs b', inv b' -> inv (ensure_calls cs b')).
    { induction cs as [|[arg w] rest IH]; intros b' Hb'; simpl; [done|].
      apply IH.
      destruct (ensureScrollableHeight_cases arg w b')
        as [[_ ->] | (_ & h & Hh & _ & Hcase)]; [done|].
      unfold inv in *.
      destruct (body_spacer b') as [sp|]; rewrite Hcase; simpl.
      - destruct Hb' as (Hk & Hp & _). eauto.
      - rewrite Hb'. eauto. }
    apply Hinv. unfold inv. by rewrite Hnone.
  - clear Hnone. revert b.
    induction calls as [|[arg w] rest IH]; intros b Htall; simpl; [done|].
    apply Forall_cons in Htall as [Hc Hrest].
    destruct (ensureScrollableHeight_cases arg w b) as [[_ ->] | [Hn _]];
      [by apply IH | done].
Qed.

Lemma ensureScrollableHeight_one_spacer_witness :
  (match body_spacer (ensure_calls resize_calls
                        {| body_children := [container_id];
                           body_spacer := None |}) with
   | None =>
       body_children (ensure_calls resize_calls
                        {| body_children := [container_id];
                           body_spacer := None |})
       = body_children {| body_children := [container_id];
                          body_spacer := None |}
   | Some sp =>
       body_children (ensure_calls resize_calls
                        {| body_children := [container_id];
                           body_spacer := None |})
       = body_children {| body_children := [container_id];
                          body_spacer := None |} ++ [spacer_id] /\
       spacer_pointerEvents sp = "none" /\
       exists h, spacer_height sp = Some h /\ 0 < h
   end) /\
  (Forall tall_enough resize_calls ->
   ensure_calls resize_calls
     {| body_children := [container_id]; body_spacer := None |}
   = {| body_children := [container_id]; body_spacer := None |}).
Proof.
  apply (ensureScrollableHeight_one_spacer resize_calls
           {| body_children := [container_id]; body_spacer := None |}).
  reflexivity.
Defined.

Example resize_calls_spacer :
  ensure_calls resize_calls
    {| body_children := [container_id]; body_spacer := None |}
  = {| body_children := [container_id; spacer_id];
       body_spacer :=
         Some {| spacer_pointerEvents := "none";
                 spacer_height := Some (1000 * 4 - 2400) |} |}.
Proof. reflexivity. Qed.

(** * The virtual offset away from the bottom *)

Lemma step_settled cfg ev st st' :
  coalesced Combined st ->
  settled st ->
  step cfg Combined ev st = Some st' ->
  settled st'.
Proof.
  intros Hc Hs Hstep. destruct (is_input ev) eqn:Hin.
  - destruct (step_input_spec cfg Combined ev st Hin Hc)
      as (s1 & Hs1 & _ & _ & _ & Hl).
    assert (s1 = st') as <- by congruence.
    intros Ht. rewrite Hl in Ht; [done | by destruct ev].
  - destruct ev; try done. simpl in Hstep.
    destruct (frame_cases cfg Combined st st' Hc Hstep)
      as [[_ ->] | (_ & Hw & Hv & _)]; [done|].
    intros _. rewrite Hw, Hv. simpl. unfold getEffectiveScroll.
    destruct (atBottom (window st)); [by right | by left].
Qed.

(** X11: in Combined mode, at every frame boundary (right after a frame has
    run) the virtual offset is 0 unless the real scroll offset is within
    the 5-unit tolerance of the maximum scrollable offset. *)
Theorem combined_offset_only_at_bottom cfg w dom pre :
  exists st,
    session cfg Combined w dom (pre ++ [Frame]) = Some st /\
    ticking st = false /\
    (virtualScrollY st = 0 \/
     maxRealScroll (window st) - 5 <= scrollY (window st)).
Proof.
  destruct (session_total cfg Combined w dom (pre ++ [Frame])) as [st Hst].
  exists st. split; [done|].
  destruct (session_run _ _ _ _ _ _ Hst)
    as (st0 & _ & Hrun & _ & Hv0 & Ht0 & Hq0 & _).
  set (P := fun s : State => coalesced Combined s /\ settled s).
  assert (Hstep : forall ev s s',
            True -> P s -> step cfg Combined ev s = Some s' -> P s').
  { intros ev s s' _ [Hc Hs] Hev. split.
    - by apply (step_coalesced cfg Combined ev s).
    - by apply (step_settled cfg ev s). }
  assert (HP0 : P st0) by (split; [by left | by intros _; left]).
  rewrite run_app in Hrun.
  destruct (run cfg Combined pre st0) as [st1|] eqn:Hpre; [|done].
  cbn [mbind option_bind] in Hrun. rewrite run_cons in Hrun.
  change (step cfg Combined Frame st1) with (frame cfg st1) in Hrun.
  destruct (frame cfg st1) as [st2|] eqn:Hf; [|done].
  simpl in Hrun. injection Hrun as ->.
  destruct (run_invariant cfg Combined (fun _ => True) P Hstep pre st0 st1)
    as [Hc1 Hs1]; [by apply Forall_true | done | done |].
  assert (Hs : settled st)
    by (by apply (step_settled cfg Frame st1)).
  assert (Ht : ticking st = false).
  { destruct (frame_cases cfg Combined st1 st Hc1 Hf)
      as [[Ht ->] | (_ & _ & _ & Ht & _)]; done. }
  split; [done|].
  destruct (Hs Ht) as [? | Hb]; [by left|].
  right. by apply Qle_bool_iff.
Qed.
